(** * reload: restarting a process when its binary changes

    A shallow embedding of [reload.go] (package [reload]) and the
    properties of its watcher-to-restart pipeline.

    The package talks to the operating system and to [fsnotify]; those
    calls are gathered in a record [world] whose fields are the answers
    the program gets.  Everything the program does to the outside
    (logging, sleeping, arming a watch, starting the goroutine, calling a
    callback, closing the watcher, replacing the process image) is
    recorded, in order, in a trace of [effect]s. *)

From Stdlib Require Import ZArith List String Ascii Bool Lia.
Import ListNotations.

Open Scope string_scope.
Open Scope list_scope.

(** ** Values of the Go program *)

(** Go [error] values: either produced by the operating system or a
    library, or built by [fmt.Errorf] (format and operands kept as they
    are written in the source). *)
Inductive error : Type :=
| OSError (msg : string)
| Errorf (format : string) (args : list arg)
with arg : Type :=
| AStr (s : string)
| AErr (e : error)
| ANil.                     (* a nil error, printed <nil> *)

(** [(T, error)] results of library calls, where only one side is used. *)
Inductive result (A : Type) : Type :=
| Ok (a : A)
| Err (e : error).
Arguments Ok {A} a.
Arguments Err {A} e.

(** What a goroutine panics with: [panic(fmt.Sprintf(format, args...))]
    or a run-time error of the Go runtime. *)
Inductive panic : Type :=
| PSprintf (format : string) (args : list arg)
| PRuntime (msg : string).

(** A call that either returns or panics. *)
Inductive call (A : Type) : Type :=
| Returns (a : A)
| Panics (v : panic).
Arguments Returns {A} a.
Arguments Panics {A} v.

(** [func()] values handed to the package: [reload.Exec] itself, or a
    function of the caller, which is opaque here: it is identified by a
    name, returns, and leaves the package's variables alone. *)
Inductive func : Type :=
| FExec
| FUser (name : string).

(** [type dir struct { path string; cb func() }] *)
Record dir : Type := Dir_ { path : string; cb : func }.

(** [func Dir(path string, cb func()) dir { return dir{path, cb} }] *)
Definition Dir (path : string) (cb : func) : dir := Dir_ path cb.

(** The watcher returned by [fsnotify.NewWatcher] is identified by its
    notification handle. *)
Definition handle : Type := nat.

(** [fsnotify.Op] and its constants, as [fsnotify] declares them
    ([Create Op = 1 << iota], then [Write], [Remove], [Rename], [Chmod]). *)
Module fsnotify.

Definition Op : Type := Z.
Definition Create : Op := Z.shiftl 1 0.
Definition Write  : Op := Z.shiftl 1 1.
Definition Remove : Op := Z.shiftl 1 2.
Definition Rename : Op := Z.shiftl 1 3.
Definition Chmod  : Op := Z.shiftl 1 4.

(** [fsnotify.Event] *)
Record Event : Type := Event_ { Name : string; Op_ : Op }.

End fsnotify.
Import fsnotify.

(** What arrives on the watcher's two channels.  The [select] has no ok
    test: once the watcher is closed, a receive from [watcher.Errors]
    gives nil (and one from [watcher.Events] the zero [Event]). *)
Inductive msg : Type :=
| MError (err : error)      (* <-watcher.Errors *)
| MEvent (event : Event)    (* <-watcher.Events *)
| MNil.                     (* <-watcher.Errors, closed: nil *)

(** [time.Duration] counts nanoseconds. *)
Module time.

Definition Millisecond : Z := 1000000.

End time.

(** The two places where the event loop calls a [func()]. *)
Inductive site : Type :=
| SRestart                  (* RestartExec()  *)
| SCallback (p : string).   (* a.cb(), for the directory with a.path = p *)

(** Everything the program does to the outside. *)
Inductive effect : Type :=
| ENewWatcher (h : handle)                 (* fsnotify.NewWatcher() gave h    *)
| EGo (additional : list dir)              (* go func() { for { select ... } } *)
| EAdd (h : handle) (d : string)           (* watcher.Add(d)                   *)
| ELog (format : string) (args : list arg) (* log(format, args...)             *)
| ESleep (d : Z)                           (* time.Sleep(d)                    *)
| ECall (s : site) (f : func)              (* the loop calls f at s            *)
| EClose (h : handle)                      (* closeWatcher()                   *)
| EExecve (argv0 : string) (argv envv : list string). (* syscall.Exec          *)

Definition trace : Type := list effect.

(** The package-level variables. *)
Record state : Type := State {
  binSelf : string;
  closeWatcher : option handle;   (* nil, or watcher.Close of watcher h *)
  RestartExec : func
}.

(** The variables' zero values, after [func init() { RestartExec = Exec }]. *)
Definition init : state :=
  {| binSelf := ""; closeWatcher := None; RestartExec := FExec |}.

(** The operating system and the libraries, as the program sees them. *)
Record world : Type := World {
  GOOS : string;                              (* runtime.GOOS      *)
  Args : list string;                         (* os.Args           *)
  Environ : list string;                      (* os.Environ()      *)
  Executable : result string;                 (* os.Executable()   *)
  Getwd : result string;                      (* os.Getwd()        *)
  IsAbs : string -> bool;                     (* filepath.IsAbs    *)
  filepath_Dir : string -> string;            (* filepath.Dir      *)
  Abs : string -> result string;              (* filepath.Abs      *)
  Stat : string -> result bool;               (* os.Stat, then s.IsDir() *)
  NewWatcher : result handle;                 (* fsnotify.NewWatcher() *)
  WatcherAdd : handle -> string -> option error;  (* watcher.Add(d): nil or an error *)
  (* syscall.Exec returns only when it fails: None is a replaced image *)
  SyscallExec : string -> list string -> list string -> option error
}.

(** ** The effect monad

    A computation starts from the package variables and gives the trace of
    what it did, and how it ended. *)
Inductive outcome (A : Type) : Type :=
| Done (a : A) (st : state)       (* returned a *)
| Replaced                        (* the process image was replaced *)
| Panicked (v : panic) (st : state)
| Blocked (st : state).           (* parked on a channel for good *)
Arguments Done {A} a st.
Arguments Replaced {A}.
Arguments Panicked {A} v st.
Arguments Blocked {A} st.

(** The goroutine, and the process with it, is over. *)
Definition final {A} (o : outcome A) : bool :=
  match o with
  | Replaced | Panicked _ _ => true
  | Done _ _ | Blocked _ => false
  end.

Definition M (A : Type) : Type := state -> trace * outcome A.

Definition ret {A} (a : A) : M A := fun st => ([], Done a st).

Definition bind {A B} (m : M A) (f : A -> M B) : M B := fun st =>
  match m st with
  | (t, Done a st') => let (t', o) := f a st' in (t ++ t', o)
  | (t, Replaced) => (t, Replaced)
  | (t, Panicked v st') => (t, Panicked v st')
  | (t, Blocked st') => (t, Blocked st')
  end.

Declare Scope go_scope.
Delimit Scope go_scope with go.
Notation "x <- m ;; k" := (bind m (fun x => k))
  (at level 61, m at next level, right associativity) : go_scope.
Notation "m ;; k" := (bind m (fun _ => k))
  (at level 61, right associativity) : go_scope.
Open Scope go_scope.

Definition get : M state := fun st => ([], Done st st).
Definition put (st : state) : M unit := fun _ => ([], Done tt st).
Definition emit (e : effect) : M unit := fun st => ([e], Done tt st).
Definition raise {A} (v : panic) : M A := fun st => ([], Panicked v st).
Definition replaced {A} : M A := fun _ => ([], Replaced).
Definition block {A} : M A := fun st => ([], Blocked st).
Definition lift {A} (c : call A) : M A :=
  match c with Returns a => ret a | Panics v => raise v end.

Definition log (format : string) (args : list arg) : M unit :=
  emit (ELog format args).
Definition Sleep (d : Z) : M unit := emit (ESleep d).

(** ** Strings *)

(** [strings.HasPrefix(s, prefix)] *)
Definition HasPrefix (s prefix : string) : bool := String.prefix prefix s.

(** [strings.TrimLeft(s, cutset)], on bytes. *)
Fixpoint mem_ascii (c : ascii) (cutset : string) : bool :=
  match cutset with
  | EmptyString => false
  | String c' rest => Ascii.eqb c c' || mem_ascii c rest
  end.

Fixpoint TrimLeft (s cutset : string) : string :=
  match s with
  | EmptyString => EmptyString
  | String c rest => if mem_ascii c cutset then TrimLeft rest cutset else s
  end.

(** [s[n:]] *)
Definition slice_from (s : string) (n : nat) : string :=
  substring n (String.length s - n) s.

(** ** The program *)

Section Reload.

Variable w : world.

(** [func self() (string, error)]: the location of the executable. *)
Definition self : call (string * option error) :=
  match Args w with
  | [] => Panics (PRuntime "index out of range [0] with length 0")
  | bin :: _ =>
      if negb (IsAbs w bin) then
        match Executable w with
        | Err err =>
            Returns ("", Some (Errorf
              "cannot get path to binary %q (launch with absolute path): %w"
              [AStr bin; AErr err]))
        | Ok bin' => Returns (bin', None)
        end
      else Returns (bin, None)
  end.

(** [func relpath(p string) string]: the path relative to cwd. *)
Definition relpath (p : string) : string :=
  match Getwd w with
  | Err _ => p
  | Ok cwd =>
      if HasPrefix p cwd
      then "./" ++ TrimLeft (slice_from p (String.length cwd)) "/"
      else p
  end.

(** [func Exec()]: replace the current process with a new copy of itself. *)
Definition Exec : M unit :=
  st <- get ;;
  execName <-
    (if String.eqb (binSelf st) "" then
       r <- lift self ;;
       match r with
       | (_, Some err) =>
           raise (PSprintf "cannot restart: cannot find self: %v" [AErr err])
       | (selfName, None) => ret selfName
       end
     else ret (binSelf st)) ;;
  match closeWatcher st with
  | Some h => emit (EClose h)
  | None => ret tt
  end ;;
  match Args w with
  | [] => raise (PRuntime "slice bounds out of range [1:0]")
  | _ :: rest =>
      let argv := [execName] ++ rest in
      emit (EExecve execName argv (Environ w)) ;;
      match SyscallExec w execName argv (Environ w) with
      | Some err => raise (PSprintf "cannot restart: %v" [AErr err])
      | None => replaced
      end
  end.

(** Calling a [func()] value. *)
Definition run (f : func) : M unit :=
  match f with
  | FExec => Exec
  | FUser _ => ret tt
  end.

Definition invoke (s : site) (f : func) : M unit :=
  emit (ECall s f) ;; run f.

(** *** The event loop of [Do] *)

Definition bsd : list string :=
  ["darwin"; "freebsd"; "openbsd"; "netbsd"; "dragonfly"].

Definition has (op flag : Op) : bool := Z.eqb (Z.land op flag) flag.

(** The [switch runtime.GOOS] that sets [trigger]. *)
Definition classify (event : Event) : M bool :=
  if existsb (String.eqb (GOOS w)) bsd then
    ret (has (Op_ event) Create)
  else if String.eqb (GOOS w) "linux" then
    ret (has (Op_ event) Write)
  else
    let trigger := has (Op_ event) Create in
    log "reload: untested GOOS %q; this package may not work correctly"
        [AStr (GOOS w)] ;;
    ret trigger.

Definition grace : Z := (100 * time.Millisecond)%Z.

(** [for _, a := range additional { if strings.HasPrefix(...) {...} }] *)
Fixpoint callbacks (additional : list dir) (event : Event) : M unit :=
  match additional with
  | [] => ret tt
  | a :: rest =>
      (if HasPrefix (Name event) (path a) then
         Sleep grace ;;
         invoke (SCallback (path a)) (cb a)
       else ret tt) ;;
      callbacks rest event
  end.

(** The body of [case event := <-watcher.Events]. *)
Definition on_event (additional : list dir) (event : Event) : M unit :=
  trigger <- classify event ;;
  if negb trigger then ret tt   (* continue *)
  else
    st <- get ;;
    (if String.eqb (Name event) (binSelf st) then
       Sleep grace ;;
       invoke SRestart (RestartExec st)
     else ret tt) ;;
    callbacks additional event.

(** One round of the [select]. *)
Definition on_msg (additional : list dir) (m : msg) : M unit :=
  match m with
  | MError err => log "reload error: %v" [AErr err]
  | MEvent event => on_event additional event
  | MNil => log "reload error: %v" [ANil]
  end.

(** [for { select { ... } }] on the messages delivered so far; when they
    are used up the goroutine waits in the [select]. *)
Fixpoint loop (additional : list dir) (msgs : list msg) : M unit :=
  match msgs with
  | [] => block
  | m :: rest => on_msg additional m ;; loop additional rest
  end.

(** *** Start-up *)

(** The validation loop of [Do]: the descriptors with their paths made
    absolute, or the error returned at the first bad one. *)
Fixpoint resolve (additional : list dir) : result (list dir) :=
  match additional with
  | [] => Ok []
  | a :: rest =>
      match Abs w (path a) with
      | Err err =>
          Err (Errorf "reload.Do: cannot get absolute path to %q: %w"
                      [AStr (path a); AErr err])
      | Ok p =>
          match Stat w p with
          | Err err => Err (Errorf "reload.Do: %w" [AErr err])
          | Ok isDir =>
              if negb isDir then
                Err (Errorf
                  "reload.Do: not a directory: %q; can only watch directories"
                  [AStr (path a)])
              else
                match resolve rest with
                | Err err => Err err
                | Ok rest' => Ok (Dir_ p (cb a) :: rest')
                end
          end
      end
  end.

(** [for _, d := range dirs { if err := watcher.Add(d); err != nil {...} }] *)
Fixpoint add_all (watcher : handle) (dirs : list string) : M (option error) :=
  match dirs with
  | [] => ret None
  | d :: rest =>
      emit (EAdd watcher d) ;;
      match WatcherAdd w watcher d with
      | Some err =>
          ret (Some (Errorf "reload.Do: cannot add %q to watcher: %w"
                            [AStr d; AErr err]))
      | None => add_all watcher rest
      end
  end.

(** The [add] part of the start-up message. *)
Definition additional_msg (dirs : list string) : string :=
  match tl dirs with
  | [] => ""
  | reldirs =>
      " (additional dirs: " ++ String.concat ", " (map relpath reldirs) ++ ")"
  end.

(** [func Do(log func(string, ...interface{}), additional ...dir) error] *)
Definition Do (additional : list dir) : M (option error) :=
  match NewWatcher w with
  | Err err =>
      ret (Some (Errorf "reload.Do: cannot setup watcher: %w" [AErr err]))
  | Ok watcher =>
      emit (ENewWatcher watcher) ;;
      st <- get ;;
      put {| binSelf := binSelf st; closeWatcher := Some watcher;
             RestartExec := RestartExec st |} ;;
      r <- lift self ;;
      let bin := fst r in
      st <- get ;;
      put {| binSelf := bin; closeWatcher := closeWatcher st;
             RestartExec := RestartExec st |} ;;
      match snd r with
      | Some err => ret (Some err)
      | None =>
          match resolve additional with
          | Err err => ret (Some err)
          | Ok additional' =>
              let dirs := filepath_Dir w bin :: map path additional' in
              emit (EGo additional') ;;
              added <- add_all watcher dirs ;;
              match added with
              | Some err => ret (Some err)
              | None =>
                  log "restarting %q when it changes%s"
                      [AStr (relpath bin); AStr (additional_msg dirs)] ;;
                  block   (* <-done *)
              end
          end
      end
  end.

End Reload.

Arguments self w : assert.
Arguments relpath w p : assert.

(** ** Reading traces *)


Definition is_callback (e : effect) : bool :=
  match e with ECall (SCallback _) _ => true | _ => false end.

Definition is_execve (e : effect) : bool :=
  match e with EExecve _ _ _ => true | _ => false end.

Definition is_close (e : effect) : bool :=
  match e with EClose _ => true | _ => false end.

Definition is_add (e : effect) : bool :=
  match e with EAdd _ _ => true | _ => false end.

Definition is_go (e : effect) : bool :=
  match e with EGo _ => true | _ => false end.

Definition count (f : effect -> bool) (t : trace) : nat :=
  List.length (filter f t).

(** The calls of [closeWatcher()] a state gives rise to. *)
Definition closing (st : state) : trace :=
  match closeWatcher st with
  | Some h => [EClose h]
  | None => []
  end.

(** The name [Exec] runs: the resolved one, or a fresh one. *)
Definition names (w : world) (st : state) (p : string) : Prop :=
  (binSelf st = p /\ p <> "") \/ (binSelf st = "" /\ self w = Returns (p, None)).

(** What the callback loop may do. *)
Definition callback_effect (e : effect) : bool :=
  match e with
  | ESleep _ | ECall (SCallback _) _ | EClose _ | EExecve _ _ _ => true
  | _ => false
  end.

(** The directories of a list whose path is a prefix of the event's. *)
Definition matching (additional : list dir) (event : Event) : list dir :=
  filter (fun a => HasPrefix (Name event) (path a)) additional.

(** A callback's turn in the loop: the grace period, then the call. *)
Definition turn (a : dir) : trace :=
  [ESleep grace; ECall (SCallback (path a)) (cb a)].

Definition returns (f : func) : bool :=
  match f with FUser _ => true | FExec => false end.

(** The operation kind that triggers on a platform, and the warning the
    [default] case of the switch logs. *)
Definition known (goos : string) : bool :=
  existsb (String.eqb goos) bsd || String.eqb goos "linux".

Definition trigger_kind (goos : string) : Op :=
  if String.eqb goos "linux" then Write else Create.

Definition triggers (w : world) (event : Event) : bool :=
  has (Op_ event) (trigger_kind (GOOS w)).

Definition untested (w : world) : effect :=
  ELog "reload: untested GOOS %q; this package may not work correctly"
       [AStr (GOOS w)].

Definition warning (w : world) : trace :=
  if known (GOOS w) then [] else [untested w].

(** The kinds of initialisation error [Do] returns, by the step that
    builds them. *)
Definition is_validation_error (e : error) : bool :=
  match e with
  | Errorf format _ =>
      String.eqb format "reload.Do: cannot get absolute path to %q: %w"
      || String.eqb format "reload.Do: %w"
      || String.eqb format
           "reload.Do: not a directory: %q; can only watch directories"
  | OSError _ => false
  end.

Definition is_watch_setup_error (e : error) : bool :=
  match e with
  | Errorf format _ =>
      String.eqb format "reload.Do: cannot add %q to watcher: %w"
  | OSError _ => false
  end.

(** A descriptor the validation loop rejects: its path cannot be made
    absolute, does not exist (cannot be stat'ed), or is not a directory. *)
Definition bad_dir (w : world) (a : dir) : bool :=
  match Abs w (path a) with
  | Err _ => true
  | Ok p =>
      match Stat w p with
      | Err _ => true
      | Ok isDir => negb isDir
      end
  end.

(** The directories [watcher.Add] is called on: up to the first refusal. *)
Fixpoint tried (w : world) (watcher : handle) (dirs : list string) : list string :=
  match dirs with
  | [] => []
  | d :: rest =>
      match WatcherAdd w watcher d with
      | Some _ => [d]
      | None => d :: tried w watcher rest
      end
  end.

(** The error of the first refusal, wrapped as [Do] wraps it. *)
Fixpoint add_error (w : world) (watcher : handle) (dirs : list string)
  : option error :=
  match dirs with
  | [] => None
  | d :: rest =>
      match WatcherAdd w watcher d with
      | Some err =>
          Some (Errorf "reload.Do: cannot add %q to watcher: %w"
                       [AStr d; AErr err])
      | None => add_error w watcher rest
      end
  end.

(** The untested-platform warning, among the effects. *)
Definition is_warning (e : effect) : bool :=
  match e with
  | ELog format _ =>
      String.eqb format
        "reload: untested GOOS %q; this package may not work correctly"
  | _ => false
  end.

Definition is_event (m : msg) : bool :=
  match m with MEvent _ => true | MError _ | MNil => false end.

(** The package variables after [Do] has created the watcher and resolved
    the binary. *)
Definition armed (st : state) (watcher : handle) (bin : string) : state :=
  {| binSelf := bin; closeWatcher := Some watcher;
     RestartExec := RestartExec st |}.

(** ** Further readings of traces and inputs *)

Definition is_sleep (e : effect) : bool :=
  match e with ESleep _ => true | _ => false end.

Definition is_call (e : effect) : bool :=
  match e with ECall _ _ => true | _ => false end.

(** What the loop logs for a notification error, and for the nil of the
    closed channel. *)
Definition error_log (err : error) : effect :=
  ELog "reload error: %v" [AErr err].

Definition nil_log : effect :=
  ELog "reload error: %v" [ANil].

(** A message the loop only passes over: an error, or an event that does
    not trigger. *)
Definition quiet (w : world) (m : msg) : bool :=
  match m with
  | MError _ | MNil => true
  | MEvent event => negb (triggers w event)
  end.

(** What passing over a message leaves in the trace. *)
Definition passing (w : world) (m : msg) : trace :=
  match m with
  | MError err => [error_log err]
  | MEvent _ => warning w
  | MNil => [nil_log]
  end.

(** A descriptor with its path made absolute. *)
Definition absolute (w : world) (a : dir) : dir :=
  match Abs w (path a) with
  | Ok p => Dir_ p (cb a)
  | Err _ => a
  end.

Definition starts_with (c : ascii) (s : string) : bool :=
  match s with
  | String c' _ => Ascii.eqb c c'
  | EmptyString => false
  end.

(** The directories [Do] hands to the watcher, in order. *)
Definition watch_list (w : world) (bin : string) (additional' : list dir)
  : list string :=
  filepath_Dir w bin :: map path additional'.

(** The start-up message of [Do]. *)
Definition startup (w : world) (bin : string) (additional' : list dir) : effect :=
  ELog "restarting %q when it changes%s"
    [AStr (relpath w bin);
     AStr (additional_msg w (watch_list w bin additional'))].

(** A world that differs in what [os.Executable] answers. *)
Definition with_Executable (w : world) (x : result string) : world :=
  {| GOOS := GOOS w; Args := Args w; Environ := Environ w;
     Executable := x; Getwd := Getwd w; IsAbs := IsAbs w;
     filepath_Dir := filepath_Dir w; Abs := Abs w; Stat := Stat w;
     NewWatcher := NewWatcher w; WatcherAdd := WatcherAdd w;
     SyscallExec := SyscallExec w |}.

(** How a computation of the loop can end: not by returning to a state
    other than the one it started from. *)
Definition keeps (st : state) (o : outcome unit) : Prop :=
  match o with
  | Done _ st' | Panicked _ st' | Blocked st' => st' = st
  | Replaced => True
  end.

(** ** Concrete worlds, for examples *)

Module Examples.

Definition is_abs (p : string) : bool := HasPrefix p "/".

Definition dirname (p : string) : string :=
  if String.eqb p "/app/bin/server" then "/app/bin"
  else if String.eqb p "/a/bc/server" then "/a/bc"
  else ".".

Definition abs (p : string) : result string :=
  if is_abs p then Ok p else Ok ("/app/" ++ p)%string.

(** The directories that exist. *)
Definition stat (p : string) : result bool :=
  if existsb (String.eqb p) ["/app"; "/app/bin"; "/app/templates"; "/a/b"; "/a/bc"]
  then Ok true
  else if String.eqb p "/app/bin/server" then Ok false
  else Err (OSError "no such file or directory").

(** A development machine running [bin -port 8080]. *)
Definition machine (goos bin : string) : world :=
  {| GOOS := goos;
     Args := [bin; "-port"; "8080"];
     Environ := ["HOME=/root"; "PATH=/bin"];
     Executable := Ok bin;
     Getwd := Ok "/app";
     IsAbs := is_abs;
     filepath_Dir := dirname;
     Abs := abs;
     Stat := stat;
     NewWatcher := Ok 3%nat;
     WatcherAdd := fun _ _ => None;
     SyscallExec := fun _ _ _ => None |}.

(** The same machine, where the watcher refuses [/app/templates]. *)
Definition no_templates (goos bin : string) : world :=
  {| GOOS := goos;
     Args := [bin; "-port"; "8080"];
     Environ := ["HOME=/root"; "PATH=/bin"];
     Executable := Ok bin;
     Getwd := Ok "/app";
     IsAbs := is_abs;
     filepath_Dir := dirname;
     Abs := abs;
     Stat := stat;
     NewWatcher := Ok 3%nat;
     WatcherAdd := fun _ d =>
       if String.eqb d "/app/templates"
       then Some (OSError "no space left on device") else None;
     SyscallExec := fun _ _ _ => None |}.

(** The same machine, where the binary cannot be executed any more. *)
Definition not_executable (goos bin : string) : world :=
  {| GOOS := goos;
     Args := [bin; "-port"; "8080"];
     Environ := ["HOME=/root"; "PATH=/bin"];
     Executable := Ok bin;
     Getwd := Ok "/app";
     IsAbs := is_abs;
     filepath_Dir := dirname;
     Abs := abs;
     Stat := stat;
     NewWatcher := Ok 3%nat;
     WatcherAdd := fun _ _ => None;
     SyscallExec := fun _ _ _ => Some (OSError "permission denied") |}.

(** The package variables once [Do] has started for [bin]. *)
Definition started (bin : string) : state :=
  {| binSelf := bin; closeWatcher := Some 3%nat; RestartExec := FExec |}.

(** The same, after the caller has set [RestartExec] to a function of
    its own. *)
Definition overridden (bin : string) : state :=
  {| binSelf := bin; closeWatcher := Some 3%nat;
     RestartExec := FUser "graceful" |}.

Definition server : string := "/app/bin/server".

Definition create (name : string) : Event := Event_ name Create.
Definition write (name : string) : Event := Event_ name Write.
Definition chmod (name : string) : Event := Event_ name Chmod.

(** A machine started as [./server] from [/app/bin], where the path of
    the executable cannot be found. *)
Definition lost (goos : string) : world :=
  {| GOOS := goos;
     Args := ["./server"; "-port"; "8080"];
     Environ := ["HOME=/root"; "PATH=/bin"];
     Executable := Err (OSError "readlink /proc/self/exe: permission denied");
     Getwd := Ok "/app/bin";
     IsAbs := is_abs;
     filepath_Dir := dirname;
     Abs := abs;
     Stat := stat;
     NewWatcher := Ok 3%nat;
     WatcherAdd := fun _ _ => None;
     SyscallExec := fun _ _ _ => None |}.

Definition remove (name : string) : Event := Event_ name Remove.
Definition rename (name : string) : Event := Event_ name Rename.

End Examples.

(** ** Running computations *)

Lemma bind_final (m : M unit) (f : unit -> M unit) (st : state) :
  final (snd (m st)) = true -> bind m f st = m st.
Proof.
  unfold bind. destruct (m st) as [t [a st'| |v st'|st']]; simpl;
    intros H; try discriminate; reflexivity.
Qed.

Lemma bind_done {A B} (m : M A) (f : A -> M B) (st : state) t a st' :
  m st = (t, Done a st') ->
  bind m f st = (t ++ fst (f a st'), snd (f a st')).
Proof.
  unfold bind. intros ->. destruct (f a st'); reflexivity.
Qed.

Lemma count_app f (t1 t2 : trace) : count f (t1 ++ t2) = (count f t1 + count f t2)%nat.
Proof. unfold count. rewrite filter_app, length_app. reflexivity. Qed.

Lemma count_none f (t : trace) :
  (forall e, In e t -> f e = false) -> count f t = 0%nat.
Proof.
  unfold count. induction t as [|e t IH]; simpl; intros H; [reflexivity|].
  rewrite (H e (or_introl eq_refl)). apply IH. intros e' He'. apply H. now right.
Qed.

Section Facts.

Variable w : world.

(** *** [self] and [Exec] *)

Lemma self_args p oe :
  self w = Returns (p, oe) -> exists a rest, Args w = a :: rest.
Proof.
  unfold self. destruct (Args w) as [|a rest]; [discriminate|]. eauto.
Qed.

Lemma Exec_final st : final (snd (Exec w st)) = true.
Proof.
  unfold Exec, bind, get, lift, ret, raise, emit, replaced.
  destruct (String.eqb (binSelf st) ""); simpl.
  - destruct (self w) as [[s [e|]]|v]; simpl; try reflexivity.
    destruct (closeWatcher st); simpl;
      destruct (Args w); simpl; try reflexivity;
      destruct (SyscallExec w _ _ _); reflexivity.
  - destruct (closeWatcher st); simpl;
      destruct (Args w); simpl; try reflexivity;
      destruct (SyscallExec w _ _ _); reflexivity.
Qed.

Lemma Exec_resolved st p a rest :
  Args w = a :: rest ->
  names w st p ->
  Exec w st =
    (closing st ++ [EExecve p (p :: rest) (Environ w)],
     match SyscallExec w p (p :: rest) (Environ w) with
     | Some err => Panicked (PSprintf "cannot restart: %v" [AErr err]) st
     | None => Replaced
     end).
Proof.
  intros Ha Hn. unfold Exec, closing, bind, get, lift, ret, raise, emit, replaced.
  rewrite Ha.
  destruct Hn as [[Hb Hne]|[Hb Hs]].
  - apply String.eqb_neq in Hne. rewrite Hb, Hne. simpl.
    destruct (closeWatcher st); simpl; destruct (SyscallExec w _ _ _); reflexivity.
  - rewrite Hb, Hs. simpl.
    destruct (closeWatcher st); simpl; destruct (SyscallExec w _ _ _); reflexivity.
Qed.

Lemma Exec_unresolved st s e :
  binSelf st = "" ->
  self w = Returns (s, Some e) ->
  Exec w st =
    ([], Panicked (PSprintf "cannot restart: cannot find self: %v" [AErr e]) st).
Proof.
  intros Hb Hs. unfold Exec, bind, get, lift, ret, raise.
  rewrite Hb, Hs. reflexivity.
Qed.

Lemma Exec_no_args st :
  Args w = [] -> count is_execve (fst (Exec w st)) = 0%nat.
Proof.
  intros Ha. unfold Exec, bind, get, lift, ret, raise, emit, replaced, self.
  rewrite Ha. destruct (String.eqb (binSelf st) ""); simpl; [reflexivity|].
  destruct (closeWatcher st); reflexivity.
Qed.

(** Whatever [Exec] does is closing the watcher and one [syscall.Exec]. *)
Lemma Exec_effects st e :
  In e (fst (Exec w st)) ->
  (exists h, e = EClose h /\ closeWatcher st = Some h) \/
  (exists p, e = EExecve p (p :: tl (Args w)) (Environ w) /\ names w st p).
Proof.
  destruct (Args w) as [|a rest] eqn:Ha.
  - unfold Exec, bind, get, lift, ret, raise, emit, replaced, self.
    rewrite Ha. destruct (String.eqb (binSelf st) ""); simpl; [tauto|].
    destruct (closeWatcher st) eqn:Hc; simpl; [|tauto].
    intros [<-|[]]. left. eauto.
  - assert (Hcl : forall p, names w st p ->
              In e (closing st ++ [EExecve p (p :: rest) (Environ w)]) ->
              (exists h, e = EClose h /\ closeWatcher st = Some h) \/
              (exists q, e = EExecve q (q :: rest) (Environ w) /\ names w st q)).
    { intros p Hn Hin. apply in_app_or in Hin. destruct Hin as [Hin|[<-|[]]].
      - unfold closing in Hin. destruct (closeWatcher st); [|destruct Hin].
        destruct Hin as [<-|[]]. left. eauto.
      - right. eauto. }
    simpl. destruct (String.eqb (binSelf st) "") eqn:Hb.
    + apply String.eqb_eq in Hb.
      destruct (self w) as [[s [err|]]|v] eqn:Hs.
      * rewrite (Exec_unresolved st s err Hb Hs). intros [].
      * assert (Hn : names w st s) by (right; auto).
        rewrite (Exec_resolved st s a rest Ha Hn). apply Hcl, Hn.
      * unfold self in Hs. rewrite Ha in Hs.
        destruct (negb (IsAbs w a)); [destruct (Executable w)|]; discriminate.
    + apply String.eqb_neq in Hb.
      assert (Hn : names w st (binSelf st)) by (left; auto).
      rewrite (Exec_resolved st _ a rest Ha Hn). apply Hcl, Hn.
Qed.


(** *** The event loop *)

Lemma classify_eq event st :
  classify w event st = (warning w, Done (triggers w event) st).
Proof.
  unfold classify, warning, known, triggers, trigger_kind.
  destruct (String.eqb (GOOS w) "linux") eqn:Hl.
  - apply String.eqb_eq in Hl. rewrite Hl. reflexivity.
  - destruct (existsb (String.eqb (GOOS w)) bsd); reflexivity.
Qed.

Lemma run_user name st : run w (FUser name) st = ([], Done tt st).
Proof. reflexivity. Qed.

Lemma callbacks_cons a rest event st :
  callbacks w (a :: rest) event st =
    if HasPrefix (Name event) (path a) then
      if returns (cb a) then
        (turn a ++ fst (callbacks w rest event st),
         snd (callbacks w rest event st))
      else
        (turn a ++ fst (Exec w st), snd (Exec w st))
    else callbacks w rest event st.
Proof.
  simpl. unfold bind at 1.
  destruct (HasPrefix (Name event) (path a)).
  - unfold Sleep, invoke, turn. destruct (cb a) as [|name]; simpl.
    + unfold bind, emit. simpl.
      pose proof (Exec_final st) as Hf.
      destruct (Exec w st) as [t [u st'| |v st'|st']]; simpl in *;
        try discriminate; reflexivity.
    + unfold bind, emit, ret. simpl.
      destruct (callbacks w rest event st). reflexivity.
  - unfold ret. simpl. destruct (callbacks w rest event st). reflexivity.
Qed.

Lemma callbacks_footprint additional event st :
  forallb callback_effect (fst (callbacks w additional event st)) = true.
Proof.
  induction additional as [|a rest IH]; [reflexivity|].
  rewrite callbacks_cons.
  destruct (HasPrefix (Name event) (path a)); [|exact IH].
  destruct (returns (cb a)); simpl; [exact IH|].
  apply forallb_forall. intros e He.
  destruct (Exec_effects st e He) as [[h [-> _]]|[p [-> _]]]; reflexivity.
Qed.

Lemma callbacks_outcome additional event st :
  match snd (callbacks w additional event st) with
  | Done _ st' => st' = st
  | Blocked _ => False
  | _ => True
  end.
Proof.
  induction additional as [|a rest IH]; [reflexivity|].
  rewrite callbacks_cons.
  destruct (HasPrefix (Name event) (path a)); [|exact IH].
  destruct (returns (cb a)); simpl; [exact IH|].
  pose proof (Exec_final st) as Hf.
  destruct (snd (Exec w st)); simpl in *; try discriminate; exact I.
Qed.


(** When every matching callback returns, each has its turn, in order. *)
Lemma callbacks_all_return additional event st :
  forallb (fun a => returns (cb a)) (matching additional event) = true ->
  callbacks w additional event st =
    (flat_map turn (matching additional event), Done tt st).
Proof.
  unfold matching.
  induction additional as [|a rest IH]; [reflexivity|].
  rewrite callbacks_cons. simpl.
  destruct (HasPrefix (Name event) (path a)); [|exact IH].
  simpl. intros H. apply andb_prop in H. destruct H as [Ha Hr].
  rewrite Ha, (IH Hr). reflexivity.
Qed.

(** A directory has its turn when the matching ones before it return. *)
Lemma callbacks_reach pre a post event st :
  forallb (fun a => returns (cb a)) (matching pre event) = true ->
  HasPrefix (Name event) (path a) = true ->
  exists t1 t2,
    fst (callbacks w (pre ++ a :: post) event st) = t1 ++ turn a ++ t2.
Proof.
  unfold matching.
  induction pre as [|b pre IH]; simpl app; intros Hpre Ha.
  - rewrite callbacks_cons, Ha. exists [].
    destruct (returns (cb a)); simpl; eauto.
  - rewrite callbacks_cons. simpl in Hpre.
    destruct (HasPrefix (Name event) (path b)).
    + simpl in Hpre. apply andb_prop in Hpre. destruct Hpre as [Hb Hpre].
      rewrite Hb. destruct (IH Hpre Ha) as [t1 [t2 Ht]].
      exists (turn b ++ t1), t2. simpl. rewrite Ht. reflexivity.
    + exact (IH Hpre Ha).
Qed.

Lemma on_event_eq additional event st :
  on_event w additional event st =
    if negb (triggers w event) then (warning w, Done tt st)
    else if String.eqb (Name event) (binSelf st) then
      if returns (RestartExec st) then
        (warning w ++ [ESleep grace; ECall SRestart (RestartExec st)]
           ++ fst (callbacks w additional event st),
         snd (callbacks w additional event st))
      else
        (warning w ++ [ESleep grace; ECall SRestart (RestartExec st)]
           ++ fst (Exec w st),
         snd (Exec w st))
    else
      (warning w ++ fst (callbacks w additional event st),
       snd (callbacks w additional event st)).
Proof.
  unfold on_event. rewrite (bind_done _ _ _ _ _ _ (classify_eq event st)).
  destruct (triggers w event); simpl.
  2:{ unfold ret. simpl. rewrite app_nil_r. reflexivity. }
  pose proof (Exec_final st) as Hf.
  cbv [bind get Sleep invoke emit ret].
  destruct (String.eqb (Name event) (binSelf st)); simpl.
  - destruct (RestartExec st) as [|name]; simpl.
    + cbv [bind].
      destruct (Exec w st) as [t [u st'| |v st'|st']]; simpl in *;
        try discriminate; reflexivity.
    + destruct (callbacks w additional event st). reflexivity.
  - destruct (callbacks w additional event st). reflexivity.
Qed.

(** *** Start-up *)

Lemma add_all_eq watcher dirs st :
  add_all w watcher dirs st =
    (map (EAdd watcher) (tried w watcher dirs),
     Done (add_error w watcher dirs) st).
Proof.
  induction dirs as [|d rest IH]; [reflexivity|].
  simpl. unfold bind, emit. simpl.
  destruct (WatcherAdd w watcher d); [reflexivity|].
  rewrite IH. reflexivity.
Qed.

Lemma Do_eq additional st :
  Do w additional st =
    match NewWatcher w with
    | Err err =>
        ([], Done (Some (Errorf "reload.Do: cannot setup watcher: %w"
                                [AErr err])) st)
    | Ok watcher =>
        match self w with
        | Panics v =>
            ([ENewWatcher watcher], Panicked v (armed st watcher (binSelf st)))
        | Returns (bin, Some err) =>
            ([ENewWatcher watcher], Done (Some err) (armed st watcher bin))
        | Returns (bin, None) =>
            match resolve w additional with
            | Err err =>
                ([ENewWatcher watcher], Done (Some err) (armed st watcher bin))
            | Ok additional' =>
                let dirs := filepath_Dir w bin :: map path additional' in
                match add_error w watcher dirs with
                | Some err =>
                    ([ENewWatcher watcher; EGo additional']
                       ++ map (EAdd watcher) (tried w watcher dirs),
                     Done (Some err) (armed st watcher bin))
                | None =>
                    ([ENewWatcher watcher; EGo additional']
                       ++ map (EAdd watcher) (tried w watcher dirs)
                       ++ [ELog "restarting %q when it changes%s"
                             [AStr (relpath w bin);
                              AStr (additional_msg w dirs)]],
                     Blocked (armed st watcher bin))
                end
            end
        end
    end.
Proof.
  unfold Do. destruct (NewWatcher w) as [watcher|err]; [|reflexivity].
  cbv [bind get put emit lift ret raise log block armed].
  destruct (self w) as [[bin [err|]]|v]; try reflexivity.
  cbv beta iota zeta delta [fst snd].
  destruct (resolve w additional) as [additional'|err]; [|reflexivity].
  rewrite add_all_eq.
  destruct (add_error w watcher _);
    cbn [app closeWatcher RestartExec]; rewrite ?app_nil_r; reflexivity.
Qed.

Lemma resolve_bad additional :
  existsb (bad_dir w) additional = true ->
  exists e, resolve w additional = Err e /\ is_validation_error e = true.
Proof.
  induction additional as [|a rest IH]; simpl; [discriminate|].
  unfold bad_dir at 1.
  destruct (Abs w (path a)) as [p|err]; [|eauto].
  destruct (Stat w p) as [isDir|err]; [|eauto].
  destruct isDir; simpl; [|eauto].
  intros H. destruct (IH H) as [e [-> He]]. eauto.
Qed.

Lemma tried_split watcher added d err rest :
  (forall d', In d' added -> WatcherAdd w watcher d' = None) ->
  WatcherAdd w watcher d = Some err ->
  tried w watcher (added ++ d :: rest) = added ++ [d] /\
  add_error w watcher (added ++ d :: rest) =
    Some (Errorf "reload.Do: cannot add %q to watcher: %w" [AStr d; AErr err]).
Proof.
  intros Hok Hd. induction added as [|d0 added IH]; simpl.
  - rewrite Hd. auto.
  - rewrite (Hok d0 (or_introl eq_refl)).
    destruct IH as [-> ->]; auto. intros d' Hd'. apply Hok. now right.
Qed.

End Facts.

(** *** Operation kinds *)

Lemma has_bit (op : Op) (n : Z) :
  (0 <= n)%Z -> has op (Z.shiftl 1 n) = Z.testbit op n.
Proof.
  intros Hn. unfold has. rewrite Z.shiftl_1_l.
  destruct (Z.testbit op n) eqn:Hb.
  - apply Z.eqb_eq. apply Z.bits_inj'. intros m Hm.
    rewrite Z.land_spec, (Z.pow2_bits_eqb n m Hn).
    destruct (Z.eqb_spec n m) as [<-|_].
    + rewrite Hb. reflexivity.
    + apply andb_false_r.
  - apply Z.eqb_neq. intros H.
    assert (Ht : Z.testbit (Z.land op (2 ^ n)) n = true).
    { rewrite H, (Z.pow2_bits_eqb n n Hn). apply Z.eqb_refl. }
    rewrite Z.land_spec, Hb in Ht. discriminate.
Qed.

(** * Properties of the pipeline *)

Import Examples.

Section Pipeline.

Variable w : world.

Lemma closing_no_execve st : count is_execve (closing st) = 0%nat.
Proof. unfold closing. destruct (closeWatcher st); reflexivity. Qed.

Lemma Exec_cases st :
  Args w = [] \/
  (exists s e, binSelf st = "" /\ self w = Returns (s, Some e)) \/
  (exists p a rest, Args w = a :: rest /\ names w st p).
Proof.
  destruct (Args w) as [|a rest] eqn:Ha; [auto|right].
  destruct (String.eqb_spec (binSelf st) "") as [Hb|Hb].
  - destruct (self w) as [[s [e|]]|v] eqn:Hs.
    + left. eauto.
    + right. exists s, a, rest. split; [reflexivity|]. right. auto.
    + unfold self in Hs. rewrite Ha in Hs.
      destruct (negb (IsAbs w a)); [destruct (Executable w)|]; discriminate.
  - right. exists (binSelf st), a, rest. split; [reflexivity|]. left. auto.
Qed.


Lemma resolved_names st p :
  self w = Returns (p, None) -> binSelf st = p -> names w st p.
Proof.
  intros Hs Hb. destruct (String.eqb_spec p "") as [He|He].
  - right. split; congruence.
  - left. auto.
Qed.

Lemma warning_footprint f :
  (forall format args, f (ELog format args) = false) ->
  count f (warning w) = 0%nat.
Proof.
  intros Hf. unfold warning. destruct (known (GOOS w)); [reflexivity|].
  unfold count, untested. simpl. rewrite Hf. reflexivity.
Qed.

Lemma callbacks_count f additional event st :
  (forall e, callback_effect e = true -> f e = false) ->
  count f (fst (callbacks w additional event st)) = 0%nat.
Proof.
  intros Hf. apply count_none. intros e He. apply Hf.
  pose proof (callbacks_footprint w additional event st) as H.
  rewrite forallb_forall in H. exact (H e He).
Qed.

Lemma Exec_count f st :
  (forall h, f (EClose h) = false) ->
  (forall p argv envv, f (EExecve p argv envv) = false) ->
  count f (fst (Exec w st)) = 0%nat.
Proof.
  intros Hc Hx. apply count_none. intros e He.
  destruct (Exec_effects w st e He) as [[h [-> _]]|[p [-> _]]]; auto.
Qed.

(** A triggering event that is not stopped by the restart action goes
    through the callback loop. *)
Lemma on_event_reaches additional event st :
  triggers w event = true ->
  Name event <> binSelf st \/ returns (RestartExec st) = true ->
  exists t1,
    count is_callback t1 = 0%nat /\
    on_event w additional event st =
      (t1 ++ fst (callbacks w additional event st),
       snd (callbacks w additional event st)).
Proof.
  intros Ht Hreach. rewrite on_event_eq, Ht. cbn [negb].
  destruct (String.eqb_spec (Name event) (binSelf st)) as [He|He].
  - destruct Hreach as [Hne|HR]; [contradiction|]. rewrite HR.
    exists (warning w ++ [ESleep grace; ECall SRestart (RestartExec st)]).
    split.
    + rewrite count_app, warning_footprint by reflexivity. reflexivity.
    + rewrite <- app_assoc. reflexivity.
  - exists (warning w). split; [|reflexivity].
    apply warning_footprint. reflexivity.
Qed.

Lemma on_event_turn pre a post event st :
  triggers w event = true ->
  Name event <> binSelf st \/ returns (RestartExec st) = true ->
  forallb (fun b => returns (cb b)) (matching pre event) = true ->
  HasPrefix (Name event) (path a) = true ->
  exists t1 t2,
    fst (on_event w (pre ++ a :: post) event st) = t1 ++ turn a ++ t2.
Proof.
  intros Ht Hreach Hpre Ha.
  destruct (on_event_reaches (pre ++ a :: post) event st Ht Hreach)
    as [t1 [_ Hrun]].
  destruct (callbacks_reach w pre a post event st Hpre Ha) as [u1 [u2 Hu]].
  exists (t1 ++ u1), u2. rewrite Hrun. cbn [fst]. rewrite Hu.
  rewrite <- app_assoc. reflexivity.
Qed.

(** The warning is logged by the switch, and by nothing after it. *)
Lemma on_event_warnings additional event st :
  count is_warning (fst (on_event w additional event st)) =
    if known (GOOS w) then 0%nat else 1%nat.
Proof.
  assert (Hw : count is_warning (warning w) =
               if known (GOOS w) then 0%nat else 1%nat).
  { unfold warning. destruct (known (GOOS w)); reflexivity. }
  assert (Hcb : count is_warning (fst (callbacks w additional event st)) = 0%nat).
  { apply callbacks_count. intros [| | | | | | |]; simpl; congruence. }
  assert (HE : count is_warning (fst (Exec w st)) = 0%nat)
    by (apply Exec_count; reflexivity).
  rewrite on_event_eq.
  destruct (negb (triggers w event)); [exact Hw|].
  destruct (String.eqb (Name event) (binSelf st)).
  - destruct (returns (RestartExec st)); cbn [fst];
      rewrite count_app, (count_app _ [_; _]), Hw, ?Hcb, ?HE;
      destruct (known (GOOS w)); reflexivity.
  - cbn [fst]. rewrite count_app, Hw, Hcb. apply Nat.add_0_r.
Qed.

Lemma on_event_not_blocked additional event st st' :
  snd (on_event w additional event st) <> Blocked st'.
Proof.
  pose proof (callbacks_outcome w additional event st) as Hc.
  pose proof (Exec_final w st) as HE.
  rewrite on_event_eq.
  destruct (negb (triggers w event)); [discriminate|].
  destruct (String.eqb (Name event) (binSelf st));
    [destruct (returns (RestartExec st))|]; cbn [snd]; intros H;
    rewrite H in *; try discriminate; contradiction.
Qed.

Lemma loop_warnings additional msgs : forall st st',
  snd (loop w additional msgs st) = Blocked st' ->
  count is_warning (fst (loop w additional msgs st)) =
    ((if known (GOOS w) then 0 else 1) * List.length (filter is_event msgs))%nat.
Proof.
  induction msgs as [|m rest IH]; intros st st'.
  - intros _. simpl. rewrite Nat.mul_0_r. reflexivity.
  - cbn [loop]. unfold bind.
    destruct (on_msg w additional m st) as [t o] eqn:Hm.
    assert (Ht : count is_warning t =
                 if is_event m then if known (GOOS w) then 0%nat else 1%nat
                 else 0%nat).
    { destruct m as [err|event|]; simpl in Hm.
      - unfold log, emit in Hm. injection Hm as <- _. reflexivity.
      - pose proof (on_event_warnings additional event st) as H.
        rewrite Hm in H. exact H.
      - unfold log, emit in Hm. injection Hm as <- _. reflexivity. }
    destruct o as [u st1| |v st1|st1]; cbn [snd]; try discriminate.
    + destruct (loop w additional rest st1) as [t' o'] eqn:Hl.
      cbn [fst snd]. intros Ho.
      pose proof (IH st1 st') as IH'. rewrite Hl in IH'.
      cbn [fst snd] in IH'.
      rewrite count_app, Ht, (IH' Ho).
      cbn [filter].
      destruct (is_event m); destruct (known (GOOS w)); cbn [List.length]; lia.
    + intros _. exfalso. destruct m as [err|event|]; simpl in Hm.
      * unfold log, emit in Hm. discriminate.
      * apply (on_event_not_blocked additional event st st1).
        rewrite Hm. reflexivity.
      * unfold log, emit in Hm. discriminate.
Qed.

Lemma prefix_append (p s : string) : String.prefix p (p ++ s) = true.
Proof.
  induction p as [|c p IH]; simpl.
  - destruct s; reflexivity.
  - destruct (ascii_dec c c) as [_|Hc]; [exact IH|contradiction].
Qed.

Lemma count_adds f watcher (dirs : list string) :
  (forall d, f (EAdd watcher d) = false) ->
  count f (map (EAdd watcher) dirs) = 0%nat.
Proof.
  intros Hf. apply count_none. intros e He.
  apply in_map_iff in He. destruct He as [d [<- _]]. apply Hf.
Qed.

End Pipeline.

(** C8: whenever [Exec] is invoked it never returns.  Without a resolved
    self-binary path it resolves one fresh, and a resolution failure is a
    panic with the message "cannot restart: cannot find self".  With a
    path, it closes the watcher's notification handle, if one is set,
    before the one call of [syscall.Exec]; when that call fails it panics
    with the message "cannot restart", without a second attempt. *)
Theorem Exec_closes_then_replaces_or_dies (w : world) (st : state) :
  final (snd (Exec w st)) = true /\
  (forall s e, binSelf st = "" -> self w = Returns (s, Some e) ->
     Exec w st =
       ([], Panicked
              (PSprintf "cannot restart: cannot find self: %v" [AErr e]) st)) /\
  (forall p a rest, Args w = a :: rest -> names w st p ->
     Exec w st =
       (closing st ++ [EExecve p (p :: rest) (Environ w)],
        match SyscallExec w p (p :: rest) (Environ w) with
        | Some err => Panicked (PSprintf "cannot restart: %v" [AErr err]) st
        | None => Replaced
        end)) /\
  (count is_execve (fst (Exec w st)) <= 1)%nat.
Proof.
  split; [apply Exec_final|].
  split; [intros s e; apply Exec_unresolved|].
  split; [intros p a rest; apply Exec_resolved|].
  destruct (Exec_cases w st) as [Ha|[[s [e [Hb Hs]]]|[p [a [rest [Ha Hn]]]]]].
  - rewrite (Exec_no_args w st Ha). lia.
  - rewrite (Exec_unresolved w st s e Hb Hs). cbv. lia.
  - rewrite (Exec_resolved w st p a rest Ha Hn). cbn [fst].
    rewrite count_app, closing_no_execve. cbv. lia.
Qed.

(** On a machine where the binary is no longer executable, [Exec] closes
    the watcher, tries once and panics. *)
Lemma Exec_closes_then_replaces_or_dies_witness :
  Exec (not_executable "linux" server) (started server) =
    ([EClose 3%nat;
      EExecve server [server; "-port"; "8080"] ["HOME=/root"; "PATH=/bin"]],
     Panicked (PSprintf "cannot restart: %v" [AErr (OSError "permission denied")])
              (started server)).
Proof.
  destruct (Exec_closes_then_replaces_or_dies
              (not_executable "linux" server) (started server))
    as [_ [_ [H _]]].
  apply (H server server ["-port"; "8080"]).
  - reflexivity.
  - left. split; [reflexivity|discriminate].
Defined.



(** C1 fails as stated: with [RestartExec] set to a function of the
    caller, a triggering event for the resolved self-binary path calls
    that function once after the sleep, and no process replacement is
    made. *)
Lemma self_change_without_replacement :
  self (machine "darwin" server) = Returns (server, None) /\
  binSelf (overridden server) = server /\
  Name (create server) = server /\
  triggers (machine "darwin" server) (create server) = true /\
  on_event (machine "darwin" server) [] (create server) (overridden server) =
    ([ESleep 100000000; ECall SRestart (FUser "graceful")],
     Done tt (overridden server)) /\
  count is_execve
    (fst (on_event (machine "darwin" server) [] (create server)
            (overridden server))) = 0%nat.
Proof. repeat split. Qed.

(** C5, as the code has it: for a triggering event whose path is the
    self-binary path, while [RestartExec] holds [Exec] (its initial value)
    the event calls [Exec] and no additional-directory callback, because
    [Exec] never returns; the callback loop is not in an else branch, so
    once [RestartExec] holds a function that returns, the same event goes
    on through the callback loop, where a directory whose path is a
    prefix of the self-binary path has its callback called (when the
    matching callbacks before it return). *)
Theorem self_branch_excludes_callbacks_while_Exec
  (w : world) (additional : list dir) (event : Event) (st : state) :
  Name event = binSelf st ->
  triggers w event = true ->
  (RestartExec st = FExec ->
     on_event w additional event st =
       (warning w ++ [ESleep grace; ECall SRestart FExec] ++ fst (Exec w st),
        snd (Exec w st)) /\
     count is_callback (fst (on_event w additional event st)) = 0%nat /\
     final (snd (on_event w additional event st)) = true) /\
  (returns (RestartExec st) = true ->
     on_event w additional event st =
       (warning w ++ [ESleep grace; ECall SRestart (RestartExec st)]
          ++ fst (callbacks w additional event st),
        snd (callbacks w additional event st)) /\
     (forall pre a post,
        additional = pre ++ a :: post ->
        forallb (fun b => returns (cb b)) (matching pre event) = true ->
        HasPrefix (binSelf st) (path a) = true ->
        In (ECall (SCallback (path a)) (cb a))
           (fst (on_event w additional event st)))).
Proof.
  intros Hn Ht. split.
  - rewrite on_event_eq, Ht, Hn, String.eqb_refl. cbn [negb].
    intros HR. rewrite HR. cbn [returns fst snd].
    split; [reflexivity|]. split; [|apply Exec_final].
    rewrite count_app, (count_app _ [_; _]).
    rewrite warning_footprint by reflexivity.
    rewrite Exec_count; reflexivity.
  - intros HR. split.
    + rewrite on_event_eq, Ht, Hn, String.eqb_refl, HR. reflexivity.
    + intros pre a post -> Hpre Ha. rewrite <- Hn in Ha.
      destruct (on_event_turn w pre a post event st Ht (or_intror HR) Hpre Ha)
        as [t1 [t2 ->]].
      apply in_or_app. right. simpl. auto.
Qed.

(** A create event for the binary on a BSD-family platform, with the
    binary's own directory also registered: the process is replaced and
    the callback is not called. *)
Lemma self_branch_excludes_callbacks_while_Exec_witness :
  count is_callback
    (fst (on_event (machine "darwin" server) [Dir "/app/bin" (FUser "cb")]
            (create server) (started server))) = 0%nat.
Proof.
  apply (self_branch_excludes_callbacks_while_Exec
           (machine "darwin" server) [Dir "/app/bin" (FUser "cb")]
           (create server) (started server)); reflexivity.
Defined.

(** C5 fails as stated: with [RestartExec] set to a function that returns,
    a triggering event for the self-binary path also calls the callback
    of a directory whose path is a prefix of it. *)
Lemma self_branch_falls_through :
  Name (create server) = binSelf (overridden server) /\
  triggers (machine "darwin" server) (create server) = true /\
  on_event (machine "darwin" server) [Dir "/app/bin" (FUser "cb")]
    (create server) (overridden server) =
    ([ESleep 100000000; ECall SRestart (FUser "graceful");
      ESleep 100000000; ECall (SCallback "/app/bin") (FUser "cb")],
     Done tt (overridden server)).
Proof. repeat split. Qed.

(** C6, as the code has it: a triggering event that reaches the callback
    loop (its path is not the self-binary path, or the restart action
    returned) and whose path has a registered directory's path as a
    prefix gets that directory's callback called right after a 100 ms
    sleep of its own, when the matching callbacks registered before it
    return; and when all matching callbacks return, each matching
    directory has its turn, in registration order, so an event matching
    two directories calls both. *)
Theorem matching_callback_called_after_grace
  (w : world) (additional : list dir) (event : Event) (st : state) :
  triggers w event = true ->
  Name event <> binSelf st \/ returns (RestartExec st) = true ->
  (forall pre a post,
     additional = pre ++ a :: post ->
     forallb (fun b => returns (cb b)) (matching pre event) = true ->
     HasPrefix (Name event) (path a) = true ->
     exists t1 t2,
       fst (on_event w additional event st) =
         t1 ++ [ESleep (100 * time.Millisecond);
                ECall (SCallback (path a)) (cb a)] ++ t2) /\
  (forallb (fun b => returns (cb b)) (matching additional event) = true ->
     exists t1,
       on_event w additional event st =
         (t1 ++ flat_map turn (matching additional event), Done tt st) /\
       count is_callback t1 = 0%nat).
Proof.
  intros Ht Hreach. split.
  - intros pre a post -> Hpre Ha.
    exact (on_event_turn w pre a post event st Ht Hreach Hpre Ha).
  - intros Hall.
    destruct (on_event_reaches w additional event st Ht Hreach)
      as [t1 [Hc Hrun]].
    exists t1. split; [|exact Hc].
    rewrite Hrun, (callbacks_all_return w additional event st Hall).
    reflexivity.
Qed.

(** Scenario B, with a second directory that matches too: both callbacks
    are called, each after its sleep, and the process is not replaced. *)
Lemma matching_callback_called_after_grace_witness :
  exists t1,
    on_event (machine "linux" server)
      [Dir "/app/templates" (FUser "reloadTemplates"); Dir "/app" (FUser "reloadAll")]
      (write "/app/templates/index.html") (started server) =
      (t1 ++ [ESleep 100000000;
              ECall (SCallback "/app/templates") (FUser "reloadTemplates");
              ESleep 100000000;
              ECall (SCallback "/app") (FUser "reloadAll")],
       Done tt (started server)) /\
    count is_callback t1 = 0%nat.
Proof.
  apply (matching_callback_called_after_grace
           (machine "linux" server)
           [Dir "/app/templates" (FUser "reloadTemplates");
            Dir "/app" (FUser "reloadAll")]
           (write "/app/templates/index.html") (started server)).
  - reflexivity.
  - left. discriminate.
  - reflexivity.
Defined.

(** C6 fails as stated.  A triggering event for the binary itself, with
    the binary's directory registered: the process is replaced and the
    callback is never called.  And a triggering event matching two
    directories, the first of which has [reload.Exec] as its callback:
    the second callback is never called. *)
Lemma matching_callback_not_called :
  (triggers (machine "darwin" server) (create server) = true /\
   HasPrefix (Name (create server)) "/app/bin" = true /\
   on_event (machine "darwin" server) [Dir "/app/bin" (FUser "cb")]
     (create server) (started server) =
     ([ESleep 100000000; ECall SRestart FExec; EClose 3%nat;
       EExecve server [server; "-port"; "8080"] ["HOME=/root"; "PATH=/bin"]],
      Replaced)) /\
  (triggers (machine "linux" server) (write "/app/templates/index.html") = true /\
   HasPrefix (Name (write "/app/templates/index.html")) "/app" = true /\
   HasPrefix (Name (write "/app/templates/index.html")) "/app/templates" = true /\
   on_event (machine "linux" server)
     [Dir "/app" FExec; Dir "/app/templates" (FUser "reloadTemplates")]
     (write "/app/templates/index.html") (started server) =
     ([ESleep 100000000; ECall (SCallback "/app") FExec; EClose 3%nat;
       EExecve server [server; "-port"; "8080"] ["HOME=/root"; "PATH=/bin"]],
      Replaced)).
Proof. repeat split. Qed.

(** C9, as the code has it: matching is [strings.HasPrefix] on the raw
    strings, with no check of a path separator.  For a registered
    directory with path p, a triggering event that reaches the callback
    loop and whose path is p followed by any characters gets p's callback
    called, when the matching callbacks registered before it return.  In
    particular, with [/a/b] and [/a/bc] registered, such an event from
    [/a/bc] also calls the callback registered for [/a/b]. *)
Theorem prefix_match_ignores_separators
  (w : world) (additional : list dir) (event : Event) (st : state) :
  triggers w event = true ->
  Name event <> binSelf st \/ returns (RestartExec st) = true ->
  (forall pre a post suffix,
     additional = pre ++ a :: post ->
     forallb (fun b => returns (cb b)) (matching pre event) = true ->
     Name event = (path a ++ suffix)%string ->
     exists t1 t2,
       fst (on_event w additional event st) =
         t1 ++ [ESleep grace; ECall (SCallback (path a)) (cb a)] ++ t2) /\
  (forall fb fbc rest,
     Name event = ("/a/bc" ++ rest)%string ->
     additional = [Dir "/a/b" fb; Dir "/a/bc" fbc] \/
     (additional = [Dir "/a/bc" fbc; Dir "/a/b" fb] /\ returns fbc = true) ->
     In (ECall (SCallback "/a/b") fb) (fst (on_event w additional event st))).
Proof.
  intros Ht Hreach. split.
  - intros pre a post suffix -> Hpre Hn.
    apply (on_event_turn w pre a post event st Ht Hreach Hpre).
    unfold HasPrefix. rewrite Hn. apply prefix_append.
  - intros fb fbc rest Hn Hadd.
    assert (Hb : HasPrefix (Name event) "/a/b" = true).
    { unfold HasPrefix. rewrite Hn.
      exact (prefix_append "/a/b" (String "c" rest)). }
    assert (Hbc : HasPrefix (Name event) "/a/bc" = true).
    { unfold HasPrefix. rewrite Hn. apply prefix_append. }
    assert (Hin : forall pre post,
              additional = pre ++ Dir "/a/b" fb :: post ->
              forallb (fun b => returns (cb b)) (matching pre event) = true ->
              In (ECall (SCallback "/a/b") fb)
                 (fst (on_event w additional event st))).
    { intros pre post -> Hpre.
      destruct (on_event_turn w pre (Dir "/a/b" fb) post event st
                  Ht Hreach Hpre Hb) as [t1 [t2 ->]].
      apply in_or_app. right. simpl. auto. }
    destruct Hadd as [Hadd|[Hadd Hr]].
    + apply (Hin [] [Dir "/a/bc" fbc] Hadd). reflexivity.
    + apply (Hin [Dir "/a/bc" fbc] [] Hadd).
      unfold matching. cbn [filter path Dir]. rewrite Hbc. simpl.
      rewrite Hr. reflexivity.
Qed.

(** A write under [/a/bc] on Linux, with [/a/b] and [/a/bc] registered:
    the callback of [/a/b] is called too. *)
Lemma prefix_match_ignores_separators_witness :
  In (ECall (SCallback "/a/b") (FUser "b"))
     (fst (on_event (machine "linux" server)
             [Dir "/a/b" (FUser "b"); Dir "/a/bc" (FUser "bc")]
             (write "/a/bc/main.css") (started server))).
Proof.
  apply (prefix_match_ignores_separators
           (machine "linux" server)
           [Dir "/a/b" (FUser "b"); Dir "/a/bc" (FUser "bc")]
           (write "/a/bc/main.css") (started server))
    with (fbc := FUser "bc") (rest := "/main.css").
  - reflexivity.
  - left. discriminate.
  - reflexivity.
  - left. reflexivity.
Defined.

(** C9 fails as stated: with [/a/b] and [/a/bc] registered and the binary
    in [/a/bc], the triggering event for the binary, which comes from
    [/a/bc] and begins with the characters of [/a/b], replaces the
    process and calls neither callback. *)
Lemma prefix_match_not_called :
  triggers (machine "linux" "/a/bc/server") (write "/a/bc/server") = true /\
  HasPrefix (Name (write "/a/bc/server")) "/a/b" = true /\
  HasPrefix (Name (write "/a/bc/server")) "/a/bc" = true /\
  on_event (machine "linux" "/a/bc/server")
    [Dir "/a/b" (FUser "b"); Dir "/a/bc" (FUser "bc")]
    (write "/a/bc/server") (started "/a/bc/server") =
    ([ESleep 100000000; ECall SRestart FExec; EClose 3%nat;
      EExecve "/a/bc/server" ["/a/bc/server"; "-port"; "8080"]
        ["HOME=/root"; "PATH=/bin"]],
     Replaced).
Proof. repeat split. Qed.

(** C3, as the code has it: what triggers depends on the platform and
    the operation only: on the BSD family an event triggers exactly when
    its operation includes create (bit 0, [fsnotify.Create]), on Linux
    exactly when it includes write (bit 1, [fsnotify.Write]), anywhere
    else exactly when it includes create.  An event that does not trigger
    changes no package variable, sleeps, restarts and calls nothing; on
    the BSD family and Linux it has no effect at all, on the other
    platforms its one effect is the untested-platform warning, which the
    switch logs before the trigger is looked at. *)
Theorem classification_by_platform (w : world) (event : Event) (st : state) :
  (In (GOOS w) bsd ->
     classify w event st = ([], Done (Z.testbit (Op_ event) 0) st) /\
     (Z.testbit (Op_ event) 0 = false ->
      forall additional, on_event w additional event st = ([], Done tt st))) /\
  (GOOS w = "linux" ->
     classify w event st = ([], Done (Z.testbit (Op_ event) 1) st) /\
     (Z.testbit (Op_ event) 1 = false ->
      forall additional, on_event w additional event st = ([], Done tt st))) /\
  (known (GOOS w) = false ->
     classify w event st = ([untested w], Done (Z.testbit (Op_ event) 0) st) /\
     (Z.testbit (Op_ event) 0 = false ->
      forall additional,
        on_event w additional event st = ([untested w], Done tt st))).
Proof.
  assert (HC : forall op, has op Create = Z.testbit op 0)
    by (intros op; apply (has_bit op 0); lia).
  assert (HW : forall op, has op Write = Z.testbit op 1)
    by (intros op; apply (has_bit op 1); lia).
  assert (Hskip : forall t b additional,
            classify w event st = (t, Done b st) -> b = false ->
            on_event w additional event st = (t, Done tt st)).
  { intros t b additional Hc ->. rewrite classify_eq in Hc.
    injection Hc as <- Htr. rewrite on_event_eq, Htr. reflexivity. }
  assert (Hbsd : In (GOOS w) bsd ->
            classify w event st = ([], Done (Z.testbit (Op_ event) 0) st)).
  { intros Hin. unfold classify.
    assert (Hb : existsb (String.eqb (GOOS w)) bsd = true).
    { apply existsb_exists. exists (GOOS w). split; [exact Hin|].
      apply String.eqb_refl. }
    rewrite Hb, <- HC. reflexivity. }
  assert (Hlinux : GOOS w = "linux" ->
            classify w event st = ([], Done (Z.testbit (Op_ event) 1) st)).
  { intros Hl. unfold classify. rewrite Hl, <- HW. reflexivity. }
  assert (Hother : known (GOOS w) = false ->
            classify w event st =
              ([untested w], Done (Z.testbit (Op_ event) 0) st)).
  { intros Hk. unfold known in Hk. apply orb_false_elim in Hk.
    destruct Hk as [Hb Hl]. unfold classify. rewrite Hb, Hl, <- HC.
    reflexivity. }
  split; [|split].
  - intros H. split; [exact (Hbsd H)|].
    intros Hbit additional. exact (Hskip _ _ additional (Hbsd H) Hbit).
  - intros H. split; [exact (Hlinux H)|].
    intros Hbit additional. exact (Hskip _ _ additional (Hlinux H) Hbit).
  - intros H. split; [exact (Hother H)|].
    intros Hbit additional. exact (Hskip _ _ additional (Hother H) Hbit).
Qed.

(** A chmod of the binary on Linux is ignored without any effect. *)
Lemma classification_by_platform_witness :
  on_event (machine "linux" server) [Dir "/app/bin" (FUser "cb")]
    (chmod server) (started server) = ([], Done tt (started server)).
Proof.
  destruct (classification_by_platform
              (machine "linux" server) (chmod server) (started server))
    as [_ [H _]].
  destruct (H eq_refl) as [_ H'].
  exact (H' eq_refl [Dir "/app/bin" (FUser "cb")]).
Defined.

(** C3 fails as stated: on a platform outside the two families an event
    that does not trigger is not without side effect: the warning is
    logged. *)
Lemma non_trigger_event_logs :
  triggers (machine "plan9" server) (chmod server) = false /\
  on_event (machine "plan9" server) [] (chmod server) (started server) =
    ([ELog "reload: untested GOOS %q; this package may not work correctly"
        [AStr "plan9"]],
     Done tt (started server)).
Proof. split; reflexivity. Qed.

(** C4, as the code has it: on a platform outside the BSD and Linux
    families the untested-platform warning is logged once for every
    change event the loop handles, triggering or not, and never for an
    error notification: a loop that has handled its messages and waits
    for the next has logged it as many times as it received events. *)
Theorem untested_warning_per_event (w : world) (additional : list dir) :
  known (GOOS w) = false ->
  (forall event st,
     count is_warning (fst (on_event w additional event st)) = 1%nat) /\
  (forall msgs st st',
     snd (loop w additional msgs st) = Blocked st' ->
     count is_warning (fst (loop w additional msgs st)) =
       List.length (filter is_event msgs)).
Proof.
  intros Hk. split.
  - intros event st. rewrite on_event_warnings, Hk. reflexivity.
  - intros msgs st st' Hb.
    rewrite (loop_warnings w additional msgs st st' Hb), Hk. lia.
Qed.

(** Three events and an error on Plan 9: three warnings. *)
Lemma untested_warning_per_event_witness :
  count is_warning
    (fst (loop (machine "plan9" server) []
            [MEvent (chmod server); MError (OSError "overflow");
             MEvent (write server); MEvent (chmod "/app/bin/x")]
            (started server))) = 3%nat.
Proof.
  destruct (untested_warning_per_event (machine "plan9" server) [] eq_refl)
    as [_ H].
  exact (H [MEvent (chmod server); MError (OSError "overflow");
            MEvent (write server); MEvent (chmod "/app/bin/x")]
           (started server) (started server) eq_refl).
Defined.

(** C4 fails as stated: two events on such a platform log the warning
    twice. *)
Lemma untested_warning_twice :
  known (GOOS (machine "plan9" server)) = false /\
  loop (machine "plan9" server) []
    [MEvent (chmod server); MEvent (chmod server)] (started server) =
    ([ELog "reload: untested GOOS %q; this package may not work correctly"
        [AStr "plan9"];
      ELog "reload: untested GOOS %q; this package may not work correctly"
        [AStr "plan9"]],
     Blocked (started server)).
Proof. split; reflexivity. Qed.

(** C2, as the code has it: when [watcher.Add] refuses a directory, [Do]
    returns the watch-setup error that names the first refused directory;
    the goroutine of the event loop was started before the first
    [watcher.Add] and is not stopped, the directories added before the
    refused one stay armed, and the watcher is not closed. *)
Theorem add_failure_leaves_loop_running
  (w : world) (additional additional' : list dir) (st : state)
  (watcher : handle) (p : string)
  (added : list string) (d : string) (rest : list string) (err : error) :
  NewWatcher w = Ok watcher ->
  self w = Returns (p, None) ->
  resolve w additional = Ok additional' ->
  filepath_Dir w p :: map path additional' = added ++ d :: rest ->
  (forall d', In d' added -> WatcherAdd w watcher d' = None) ->
  WatcherAdd w watcher d = Some err ->
  Do w additional st =
    ([ENewWatcher watcher; EGo additional']
       ++ map (EAdd watcher) (added ++ [d]),
     Done (Some (Errorf "reload.Do: cannot add %q to watcher: %w"
                        [AStr d; AErr err]))
          (armed st watcher p)) /\
  is_watch_setup_error
    (Errorf "reload.Do: cannot add %q to watcher: %w" [AStr d; AErr err]) = true /\
  count is_go (fst (Do w additional st)) = 1%nat /\
  count is_close (fst (Do w additional st)) = 0%nat.
Proof.
  intros HW Hs Hr Hd Hok Hfail.
  destruct (tried_split w watcher added d err rest Hok Hfail) as [Ht He].
  assert (HD : Do w additional st =
    ([ENewWatcher watcher; EGo additional']
       ++ map (EAdd watcher) (added ++ [d]),
     Done (Some (Errorf "reload.Do: cannot add %q to watcher: %w"
                        [AStr d; AErr err]))
          (armed st watcher p))).
  { rewrite Do_eq, HW, Hs, Hr. cbv zeta. rewrite Hd, He, Ht. reflexivity. }
  rewrite HD. cbn [fst]. repeat split.
  - rewrite (count_app _ [_; _]), count_adds by reflexivity. reflexivity.
  - rewrite (count_app _ [_; _]), count_adds by reflexivity. reflexivity.
Qed.

(** The watcher takes the binary's directory and refuses the templates:
    [Do] returns the error, with the loop started and [/app/bin] armed. *)
Lemma add_failure_leaves_loop_running_witness :
  Do (no_templates "linux" server) [Dir "templates" (FUser "reloadTpl")] init =
    ([ENewWatcher 3%nat; EGo [Dir "/app/templates" (FUser "reloadTpl")];
      EAdd 3%nat "/app/bin"; EAdd 3%nat "/app/templates"],
     Done (Some (Errorf "reload.Do: cannot add %q to watcher: %w"
                   [AStr "/app/templates";
                    AErr (OSError "no space left on device")]))
          (started server)).
Proof.
  apply (add_failure_leaves_loop_running
           (no_templates "linux" server)
           [Dir "templates" (FUser "reloadTpl")]
           [Dir "/app/templates" (FUser "reloadTpl")]
           init 3%nat server ["/app/bin"] "/app/templates" []
           (OSError "no space left on device")).
  - reflexivity.
  - reflexivity.
  - reflexivity.
  - reflexivity.
  - intros d' [<-|[]]. reflexivity.
  - reflexivity.
Defined.

(** C2 fails as stated: [watcher.Add] fails, [Do] returns the error, and
    the event loop has been started all the same; with the binary's
    directory armed before the failure, a later write of the binary is
    handled by that loop and replaces the process. *)
Lemma add_failure_with_loop_started :
  WatcherAdd (no_templates "linux" server) 3%nat "/app/templates" <> None /\
  Do (no_templates "linux" server) [Dir "templates" (FUser "reloadTpl")] init =
    ([ENewWatcher 3%nat; EGo [Dir "/app/templates" (FUser "reloadTpl")];
      EAdd 3%nat "/app/bin"; EAdd 3%nat "/app/templates"],
     Done (Some (Errorf "reload.Do: cannot add %q to watcher: %w"
                   [AStr "/app/templates";
                    AErr (OSError "no space left on device")]))
          (started server)) /\
  loop (no_templates "linux" server) [Dir "/app/templates" (FUser "reloadTpl")]
    [MEvent (write server)] (started server) =
    ([ESleep 100000000; ECall SRestart FExec; EClose 3%nat;
      EExecve server [server; "-port"; "8080"] ["HOME=/root"; "PATH=/bin"]],
     Replaced).
Proof. repeat split. discriminate. Qed.

(** C7: when a descriptor of the list is bad (its path cannot be made
    absolute, does not exist, or is not a directory), [Do] does not
    succeed: it returns an error (or panics in [self]), it calls
    [watcher.Add] on no directory, also not on those of the descriptors
    before the bad one, and it does not start the event loop; once the
    watcher is created and the binary resolved, what it returns is a
    validation error, having done nothing but create the watcher. *)
Theorem validation_failure_arms_nothing
  (w : world) (additional : list dir) (st : state) :
  existsb (bad_dir w) additional = true ->
  count is_add (fst (Do w additional st)) = 0%nat /\
  count is_go (fst (Do w additional st)) = 0%nat /\
  match snd (Do w additional st) with
  | Done (Some _) _ | Panicked _ _ => True
  | Done None _ | Replaced | Blocked _ => False
  end /\
  (forall watcher p,
     NewWatcher w = Ok watcher ->
     self w = Returns (p, None) ->
     exists e,
       is_validation_error e = true /\
       Do w additional st =
         ([ENewWatcher watcher], Done (Some e) (armed st watcher p))).
Proof.
  intros Hbad. destruct (resolve_bad w additional Hbad) as [e [Hr He]].
  rewrite Do_eq, Hr.
  destruct (NewWatcher w) as [watcher|err].
  - destruct (self w) as [[bin [err|]]|v]; cbn [fst snd];
      (repeat split; try reflexivity);
      intros watcher' p Hw Hs; try discriminate.
    injection Hw as <-. injection Hs as <-.
    exists e. split; [exact He|reflexivity].
  - cbn [fst snd]. split; [reflexivity|]. split; [reflexivity|].
    split; [exact I|]. intros watcher p Hw. discriminate.
Qed.

(** Scenario C, after a good descriptor: [/app/missing] does not exist. *)
Lemma validation_failure_arms_nothing_witness :
  exists e,
    is_validation_error e = true /\
    Do (machine "linux" server)
       [Dir "templates" (FUser "reloadTpl"); Dir "/app/missing" FExec] init =
      ([ENewWatcher 3%nat], Done (Some e) (started server)).
Proof.
  destruct (validation_failure_arms_nothing
              (machine "linux" server)
              [Dir "templates" (FUser "reloadTpl"); Dir "/app/missing" FExec]
              init eq_refl) as [_ [_ [_ H]]].
  exact (H 3%nat server eq_refl eq_refl).
Defined.

(** C10: a [Do] that returns an error after it has created the watcher
    has already stored the watcher's [Close] in [closeWatcher], has
    stored in [binSelf] what [self] gave (the path, or the empty string
    of a failed resolution, whose error it returns), and has not closed
    the watcher: the trace starts with the watcher's creation and holds
    no [closeWatcher()]. *)
Theorem failed_Do_keeps_watcher_open
  (w : world) (additional : list dir) (st st' : state)
  (watcher : handle) (t : trace) (e : error) :
  NewWatcher w = Ok watcher ->
  Do w additional st = (t, Done (Some e) st') ->
  closeWatcher st' = Some watcher /\
  RestartExec st' = RestartExec st /\
  (exists t', t = ENewWatcher watcher :: t') /\
  count is_close t = 0%nat /\
  (forall p, self w = Returns (p, None) -> binSelf st' = p) /\
  (forall s err, self w = Returns (s, Some err) -> binSelf st' = s /\ e = err).
Proof.
  intros HW HD. rewrite Do_eq, HW in HD.
  destruct (self w) as [[bin [err|]]|v]; [| |discriminate].
  - injection HD as <- <- <-. repeat split; try reflexivity.
    + eauto.
    + intros p Hp. discriminate.
    + injection H as <- _. reflexivity.
    + injection H as _ <-. reflexivity.
  - assert (Hres : t = [ENewWatcher watcher] \/
                   exists additional' dirs,
                     t = [ENewWatcher watcher; EGo additional']
                           ++ map (EAdd watcher) dirs).
    { destruct (resolve w additional) as [additional'|err].
      - cbv zeta in HD.
        destruct (add_error w watcher _); [|discriminate].
        injection HD as <- _ _. right. eexists _, _. reflexivity.
      - injection HD as <- _ _. left. reflexivity. }
    assert (Hst : st' = armed st watcher bin).
    { destruct (resolve w additional) as [additional'|err].
      - cbv zeta in HD.
        destruct (add_error w watcher _); [|discriminate].
        injection HD as _ _ <-. reflexivity.
      - injection HD as _ _ <-. reflexivity. }
    subst st'. repeat split; try reflexivity.
    + destruct Hres as [->|[a' [dirs ->]]]; eexists; reflexivity.
    + destruct Hres as [->|[a' [dirs ->]]]; [reflexivity|].
      rewrite (count_app _ [_; _]), count_adds by reflexivity. reflexivity.
    + intros p Hp. injection Hp as <-. reflexivity.
    + discriminate.
    + discriminate.
Qed.

(** The start-up of Scenario C returns with handle 3 stored in
    [closeWatcher] and still open. *)
Lemma failed_Do_keeps_watcher_open_witness :
  Do (machine "linux" server) [Dir "/app/missing" FExec] init =
    ([ENewWatcher 3%nat],
     Done (Some (Errorf "reload.Do: %w"
                   [AErr (OSError "no such file or directory")]))
          (started server)) /\
  closeWatcher (started server) = Some 3%nat /\
  count is_close [ENewWatcher 3%nat] = 0%nat.
Proof.
  split; [reflexivity|].
  destruct (failed_Do_keeps_watcher_open
              (machine "linux" server) [Dir "/app/missing" FExec]
              init (started server) 3%nat [ENewWatcher 3%nat]
              (Errorf "reload.Do: %w" [AErr (OSError "no such file or directory")])
              eq_refl eq_refl) as [H1 [_ [_ [H2 _]]]].
  exact (conj H1 H2).
Defined.

(** * Further properties *)

(** ** Strings *)

Lemma append_empty_r (s : string) : (s ++ "")%string = s.
Proof. induction s as [|c s IH]; simpl; [reflexivity|]. rewrite IH. reflexivity. Qed.

Lemma length_append (p s : string) :
  String.length (p ++ s) = (String.length p + String.length s)%nat.
Proof. induction p as [|c p IH]; simpl; [reflexivity|]. rewrite IH. reflexivity. Qed.

Lemma substring_all (s : string) : substring 0 (String.length s) s = s.
Proof. induction s as [|c s IH]; simpl; [reflexivity|]. rewrite IH. reflexivity. Qed.

Lemma slice_from_append (p s : string) :
  slice_from (p ++ s) (String.length p) = s.
Proof.
  unfold slice_from. rewrite length_append.
  replace (String.length p + String.length s - String.length p)%nat
    with (String.length s) by lia.
  induction p as [|c p IH]; simpl; [apply substring_all|exact IH].
Qed.

Lemma TrimLeft_not_cut (s cutset : string) (c : ascii) :
  mem_ascii c cutset = true -> starts_with c (TrimLeft s cutset) = false.
Proof.
  intros Hc. induction s as [|c' s IH]; simpl; [reflexivity|].
  destruct (mem_ascii c' cutset) eqn:Hc'; [exact IH|].
  simpl. destruct (Ascii.eqb_spec c c') as [->|_]; [congruence|reflexivity].
Qed.

Lemma TrimLeft_other (c : ascii) (s : string) :
  starts_with c s = false -> TrimLeft s (String c "") = s.
Proof.
  destruct s as [|c' s]; [reflexivity|].
  cbn [starts_with TrimLeft mem_ascii]. intros H.
  rewrite Ascii.eqb_sym, H. reflexivity.
Qed.

(** ** The path resolver *)

(** X1: [self] gives [os.Args[0]] unchanged when it is absolute, whatever
    [os.Executable] would answer.  Whenever it returns, it returns either
    a path and no error (that argument, or what [os.Executable] gave for
    a relative one), or the empty path with an error that names
    [os.Args[0]] and wraps the error of [os.Executable]; it panics only
    when [os.Args] is empty. *)
Theorem self_resolution (w : world) :
  (forall bin rest x,
     Args w = bin :: rest -> IsAbs w bin = true ->
     self (with_Executable w x) = Returns (bin, None)) /\
  (forall p oe,
     self w = Returns (p, oe) ->
     exists bin rest,
       Args w = bin :: rest /\
       ((IsAbs w bin = true /\ p = bin /\ oe = None) \/
        (IsAbs w bin = false /\ Executable w = Ok p /\ oe = None) \/
        (IsAbs w bin = false /\ p = "" /\
         exists err,
           Executable w = Err err /\
           oe = Some (Errorf
                  "cannot get path to binary %q (launch with absolute path): %w"
                  [AStr bin; AErr err])))) /\
  (forall v, self w = Panics v -> Args w = []).
Proof.
  repeat split.
  - intros bin rest x Ha Hb. unfold self. simpl. rewrite Ha, Hb. reflexivity.
  - intros p oe. unfold self. destruct (Args w) as [|bin rest]; [discriminate|].
    intros H. exists bin, rest. split; [reflexivity|].
    destruct (IsAbs w bin); simpl in H.
    + injection H as <- <-. auto.
    + destruct (Executable w) as [b|err]; injection H as <- <-.
      * right. left. auto.
      * right. right. repeat split. eauto.
  - intros v. unfold self. destruct (Args w) as [|bin rest]; [reflexivity|].
    destruct (negb (IsAbs w bin)); [destruct (Executable w)|]; discriminate.
Qed.

(** Started with an absolute path, the machine does not need
    [os.Executable]: the path is used even when that call would fail. *)
Lemma self_resolution_witness :
  self (with_Executable (machine "linux" server)
          (Err (OSError "readlink /proc/self/exe: permission denied")))
    = Returns (server, None).
Proof.
  destruct (self_resolution (machine "linux" server)) as [H _].
  exact (H server ["-port"; "8080"] _ eq_refl eq_refl).
Defined.

(** ** Paths relative to the working directory *)

(** X2: with working directory cwd, [relpath] turns cwd followed by any
    characters s into "./" and s without its leading slashes: the test is
    on the raw prefix, whether or not s starts at a path separator.  So a
    name below cwd comes back relative, and cwd itself comes back as
    "./". *)
Theorem relpath_below_cwd (w : world) (cwd : string) :
  Getwd w = Ok cwd ->
  (forall s, relpath w (cwd ++ s) = ("./" ++ TrimLeft s "/")%string) /\
  (forall r, starts_with "/" r = false ->
     relpath w (cwd ++ "/" ++ r) = ("./" ++ r)%string) /\
  relpath w cwd = "./".
Proof.
  intros Hc.
  assert (H : forall s, relpath w (cwd ++ s) = ("./" ++ TrimLeft s "/")%string).
  { intros s. unfold relpath, HasPrefix. rewrite Hc, prefix_append.
    rewrite slice_from_append. reflexivity. }
  repeat split.
  - exact H.
  - intros r Hr. rewrite H.
    change (TrimLeft ("/" ++ r) "/") with (TrimLeft r "/").
    rewrite (TrimLeft_other "/" r Hr). reflexivity.
  - rewrite <- (append_empty_r cwd) at 1. rewrite H. reflexivity.
Qed.

(** The templates of the development machine, and a sibling whose name
    only begins like the working directory. *)
Lemma relpath_below_cwd_witness :
  relpath (machine "linux" server) "/app/templates" = "./templates" /\
  relpath (machine "linux" server) "/application/x" = "./lication/x".
Proof.
  destruct (relpath_below_cwd (machine "linux" server) "/app" eq_refl)
    as [H1 [H2 _]].
  split.
  - exact (H2 "templates" eq_refl).
  - exact (H1 "lication/x").
Defined.

(** X3: [relpath] either leaves the path as it is, or gives "./"
    followed by a name that does not start with a slash; it changes
    nothing when the working directory is unknown or is not a prefix of
    the path. *)
Theorem relpath_shape (w : world) (p : string) :
  (relpath w p = p \/
   exists r, relpath w p = ("./" ++ r)%string /\ starts_with "/" r = false) /\
  (forall err, Getwd w = Err err -> relpath w p = p) /\
  (forall cwd, Getwd w = Ok cwd -> HasPrefix p cwd = false -> relpath w p = p).
Proof.
  unfold relpath. repeat split.
  - destruct (Getwd w) as [cwd|err]; [|auto].
    destruct (HasPrefix p cwd); [|auto].
    right. eexists. split; [reflexivity|].
    apply TrimLeft_not_cut. reflexivity.
  - intros err ->. reflexivity.
  - intros cwd -> ->. reflexivity.
Qed.

(** A path outside the working directory is shown as it is. *)
Lemma relpath_shape_witness :
  relpath (machine "linux" server) "/a/bc" = "/a/bc".
Proof.
  destruct (relpath_shape (machine "linux" server) "/a/bc") as [_ [_ H]].
  exact (H "/app" eq_refl eq_refl).
Defined.

(** ** Validation of the additional directories *)

Section Startup.

Variable w : world.

Lemma resolve_good additional :
  existsb (bad_dir w) additional = false ->
  resolve w additional = Ok (map (absolute w) additional).
Proof.
  induction additional as [|a rest IH]; simpl; [reflexivity|].
  unfold bad_dir at 1, absolute at 1.
  destruct (Abs w (path a)) as [p|err]; [|discriminate].
  destruct (Stat w p) as [isDir|err]; [|discriminate].
  destruct isDir; simpl; [|discriminate].
  intros H. rewrite (IH H). reflexivity.
Qed.

Lemma absolute_is_dir a :
  bad_dir w a = false -> Stat w (path (absolute w a)) = Ok true.
Proof.
  unfold bad_dir, absolute.
  destruct (Abs w (path a)) as [p|err]; [|discriminate].
  simpl. destruct (Stat w p) as [[|]|err]; simpl; congruence.
Qed.

Lemma absolute_cb a : cb (absolute w a) = cb a.
Proof. unfold absolute. destruct (Abs w (path a)); reflexivity. Qed.

Lemma add_error_none watcher dirs :
  add_error w watcher dirs = None <->
  (forall d, In d dirs -> WatcherAdd w watcher d = None).
Proof.
  induction dirs as [|d rest IH]; simpl.
  - split; [intros _ d []|reflexivity].
  - destruct (WatcherAdd w watcher d) eqn:Hd.
    + split; [discriminate|]. intros H.
      rewrite (H d (or_introl eq_refl)) in Hd. discriminate.
    + rewrite IH. split.
      * intros H d' [<-|Hin]; auto.
      * intros H d' Hin. apply H. now right.
Qed.

Lemma tried_all watcher dirs :
  add_error w watcher dirs = None -> tried w watcher dirs = dirs.
Proof.
  induction dirs as [|d rest IH]; simpl; [reflexivity|].
  destruct (WatcherAdd w watcher d); [discriminate|].
  intros H. rewrite (IH H). reflexivity.
Qed.

End Startup.

(** X4: the validation loop accepts a list exactly when none of its
    descriptors is bad, and what it hands on is the same descriptors, in
    the same order and with the same callbacks, each path replaced by its
    absolute form, which is a directory. *)
Theorem resolve_accepts (w : world) (additional : list dir) :
  ((exists additional', resolve w additional = Ok additional') <->
   existsb (bad_dir w) additional = false) /\
  (forall additional',
     resolve w additional = Ok additional' ->
     additional' = map (absolute w) additional /\
     map cb additional' = map cb additional /\
     (forall a, In a additional -> Abs w (path a) = Ok (path (absolute w a))) /\
     (forall a', In a' additional' -> Stat w (path a') = Ok true)).
Proof.
  assert (Hiff : (exists additional', resolve w additional = Ok additional') <->
                 existsb (bad_dir w) additional = false).
  { split.
    - intros [l Hl]. destruct (existsb (bad_dir w) additional) eqn:Hb; [|reflexivity].
      destruct (resolve_bad w additional Hb) as [e [He _]]. congruence.
    - intros Hb. eexists. apply (resolve_good w additional Hb). }
  split; [exact Hiff|].
  intros additional' Hr.
  assert (Hb : existsb (bad_dir w) additional = false) by (apply Hiff; eauto).
  rewrite (resolve_good w additional Hb) in Hr. injection Hr as <-.
  assert (Hall : forall a, In a additional -> bad_dir w a = false).
  { intros a Ha. destruct (bad_dir w a) eqn:Hba; [|reflexivity].
    assert (existsb (bad_dir w) additional = true)
      by (apply existsb_exists; eauto). congruence. }
  repeat split.
  - rewrite map_map. apply map_ext. apply absolute_cb.
  - intros a Ha. pose proof (Hall a Ha) as Hba. unfold bad_dir in Hba.
    unfold absolute. destruct (Abs w (path a)); [reflexivity|discriminate].
  - intros a' Ha'. apply in_map_iff in Ha'. destruct Ha' as [a [<- Ha]].
    apply absolute_is_dir, Hall, Ha.
Qed.

(** The relative [templates] of the development machine is handed on as
    [/app/templates], with its callback. *)
Lemma resolve_accepts_witness :
  [Dir "/app/templates" (FUser "reloadTpl")] =
    map (absolute (machine "linux" server)) [Dir "templates" (FUser "reloadTpl")] /\
  map cb [Dir "/app/templates" (FUser "reloadTpl")] =
    map cb [Dir "templates" (FUser "reloadTpl")] /\
  (forall a, In a [Dir "templates" (FUser "reloadTpl")] ->
     Abs (machine "linux" server) (path a) =
       Ok (path (absolute (machine "linux" server) a))) /\
  (forall a', In a' [Dir "/app/templates" (FUser "reloadTpl")] ->
     Stat (machine "linux" server) (path a') = Ok true).
Proof.
  destruct (resolve_accepts (machine "linux" server)
              [Dir "templates" (FUser "reloadTpl")]) as [_ H].
  exact (H [Dir "/app/templates" (FUser "reloadTpl")] eq_refl).
Defined.

(** X5: the error of the validation loop is that of the first bad
    descriptor: good descriptors before it and whatever comes after it
    make no difference. *)
Theorem resolve_first_bad (w : world) (good : list dir) (a : dir) (rest : list dir) :
  existsb (bad_dir w) good = false ->
  bad_dir w a = true ->
  resolve w (good ++ a :: rest) = resolve w [a] /\
  exists e, resolve w [a] = Err e /\ is_validation_error e = true.
Proof.
  intros Hg Ha. split.
  - induction good as [|b good IH]; simpl.
    + unfold bad_dir in Ha.
      destruct (Abs w (path a)) as [p|err]; [|reflexivity].
      destruct (Stat w p) as [isDir|err]; [|reflexivity].
      destruct isDir; [discriminate|reflexivity].
    + simpl in Hg. apply orb_false_elim in Hg. destruct Hg as [Hb Hg].
      unfold bad_dir in Hb.
      destruct (Abs w (path b)) as [p|err]; [|discriminate].
      destruct (Stat w p) as [isDir|err]; [|discriminate].
      destruct isDir; [|discriminate]. cbn [negb].
      rewrite (IH Hg). simpl.
      unfold bad_dir in Ha.
      destruct (Abs w (path a)) as [q|err]; [|reflexivity].
      destruct (Stat w q) as [isDir|err]; [|reflexivity].
      destruct isDir; [discriminate|reflexivity].
  - apply resolve_bad. simpl. rewrite Ha. reflexivity.
Qed.

(** The binary is not a directory: the error names it, wherever it
    stands in the list and whatever follows. *)
Lemma resolve_first_bad_witness :
  resolve (machine "linux" server)
    ([Dir "templates" (FUser "reloadTpl")]
       ++ Dir "bin/server" FExec :: [Dir "/app/missing" FExec]) =
    Err (Errorf "reload.Do: not a directory: %q; can only watch directories"
                [AStr "bin/server"]).
Proof.
  destruct (resolve_first_bad (machine "linux" server)
              [Dir "templates" (FUser "reloadTpl")] (Dir "bin/server" FExec)
              [Dir "/app/missing" FExec] eq_refl eq_refl) as [H _].
  exact H.
Defined.

(** ** Start-up *)

(** X6: [Do] never returns nil and never replaces the process: it returns
    an error, panics in [self], or parks on [<-done]; and it parks
    exactly when the watcher was created, the binary resolved, every
    descriptor accepted and every directory of the watch list added. *)
Theorem Do_returns_only_errors (w : world) (additional : list dir) (st : state) :
  match snd (Do w additional st) with
  | Done (Some _) _ | Panicked _ _ | Blocked _ => True
  | Done None _ | Replaced => False
  end /\
  ((exists st', snd (Do w additional st) = Blocked st') <->
   (exists watcher bin additional',
      NewWatcher w = Ok watcher /\
      self w = Returns (bin, None) /\
      resolve w additional = Ok additional' /\
      (forall d, In d (watch_list w bin additional') ->
         WatcherAdd w watcher d = None))).
Proof.
  rewrite Do_eq. split.
  - destruct (NewWatcher w) as [watcher|err]; [|exact I].
    destruct (self w) as [[bin [err|]]|v]; try exact I.
    destruct (resolve w additional) as [additional'|err]; [|exact I].
    cbv zeta. destruct (add_error w watcher _); exact I.
  - split.
    + intros [st' H].
      destruct (NewWatcher w) as [watcher|err]; [|discriminate].
      destruct (self w) as [[bin [err|]]|v]; try discriminate.
      destruct (resolve w additional) as [additional'|err]; [|discriminate].
      cbv zeta in H.
      destruct (add_error w watcher _) eqn:Hadd; [discriminate|].
      exists watcher, bin, additional'. repeat split.
      apply add_error_none. exact Hadd.
    + intros [watcher [bin [additional' [-> [-> [-> Hadd]]]]]].
      apply add_error_none in Hadd. unfold watch_list in Hadd.
      cbv zeta. rewrite Hadd. eexists. reflexivity.
Qed.

(** The development machine with its templates: [Do] parks. *)
Lemma Do_returns_only_errors_witness :
  exists st',
    snd (Do (machine "linux" server) [Dir "templates" (FUser "reloadTpl")] init)
      = Blocked st'.
Proof.
  destruct (Do_returns_only_errors (machine "linux" server)
              [Dir "templates" (FUser "reloadTpl")] init) as [_ [_ H]].
  apply H.
  exists 3%nat, server, [Dir "/app/templates" (FUser "reloadTpl")].
  repeat split.
Defined.

(** X7: a start-up in which every step succeeds creates the watcher,
    starts the event loop on the resolved descriptors, adds the directory
    of the binary first and then the additional directories in the order
    they were given, logs the start-up message once, and parks with
    [binSelf] and [closeWatcher] set and [RestartExec] untouched. *)
Theorem Do_arms_in_order
  (w : world) (additional additional' : list dir) (st : state)
  (watcher : handle) (bin : string) :
  NewWatcher w = Ok watcher ->
  self w = Returns (bin, None) ->
  resolve w additional = Ok additional' ->
  (forall d, In d (watch_list w bin additional') ->
     WatcherAdd w watcher d = None) ->
  Do w additional st =
    ([ENewWatcher watcher; EGo additional']
       ++ EAdd watcher (filepath_Dir w bin)
       :: map (fun a => EAdd watcher (path a)) additional'
       ++ [startup w bin additional'],
     Blocked (armed st watcher bin)).
Proof.
  intros HW Hs Hr Hadd. apply add_error_none in Hadd.
  unfold watch_list in Hadd.
  rewrite Do_eq, HW, Hs, Hr. cbv zeta.
  rewrite Hadd, (tried_all w watcher _ Hadd).
  cbn [map]. rewrite map_map. reflexivity.
Qed.

(** The development machine with two directories. *)
Lemma Do_arms_in_order_witness :
  Do (machine "linux" server)
     [Dir "templates" (FUser "reloadTpl"); Dir "/a/b" FExec] init =
    ([ENewWatcher 3%nat;
      EGo [Dir "/app/templates" (FUser "reloadTpl"); Dir "/a/b" FExec];
      EAdd 3%nat "/app/bin"; EAdd 3%nat "/app/templates"; EAdd 3%nat "/a/b";
      ELog "restarting %q when it changes%s"
        [AStr "./bin/server"; AStr " (additional dirs: ./templates, /a/b)"]],
     Blocked (started server)).
Proof.
  apply (Do_arms_in_order (machine "linux" server)
           [Dir "templates" (FUser "reloadTpl"); Dir "/a/b" FExec]
           [Dir "/app/templates" (FUser "reloadTpl"); Dir "/a/b" FExec]
           init 3%nat server); try reflexivity.
Defined.

(** X8: after a start-up that parked, [Exec] (called by the loop or by
    anyone) closes the very watcher that [Do] created and then calls
    [syscall.Exec] once on the binary [Do] resolved, with that path
    followed by [os.Args[1:]] and with [os.Environ()]. *)
Theorem Exec_after_Do
  (w : world) (additional : list dir) (st st' : state) (t : trace) :
  Do w additional st = (t, Blocked st') ->
  exists watcher bin,
    NewWatcher w = Ok watcher /\
    self w = Returns (bin, None) /\
    In (ENewWatcher watcher) t /\
    Exec w st' =
      ([EClose watcher; EExecve bin (bin :: tl (Args w)) (Environ w)],
       match SyscallExec w bin (bin :: tl (Args w)) (Environ w) with
       | Some err => Panicked (PSprintf "cannot restart: %v" [AErr err]) st'
       | None => Replaced
       end).
Proof.
  rewrite Do_eq. intros H.
  destruct (NewWatcher w) as [watcher|err]; [|discriminate].
  destruct (self w) as [[bin [err|]]|v] eqn:Hs; try discriminate.
  destruct (resolve w additional) as [additional'|err]; [|discriminate].
  cbv zeta in H. destruct (add_error w watcher _); [discriminate|].
  injection H as <- <-.
  exists watcher, bin. repeat split.
  - left. reflexivity.
  - destruct (self_args w bin None Hs) as [a [rest Ha]].
    rewrite Ha. cbn [tl].
    apply (Exec_resolved w (armed st watcher bin) bin a rest Ha).
    apply resolved_names; [exact Hs|reflexivity].
Qed.

(** On the development machine the watcher with handle 3 is closed. *)
Lemma Exec_after_Do_witness :
  exists watcher bin,
    NewWatcher (machine "linux" server) = Ok watcher /\
    self (machine "linux" server) = Returns (bin, None) /\
    In (ENewWatcher watcher)
       [ENewWatcher 3%nat; EGo []; EAdd 3%nat "/app/bin";
        startup (machine "linux" server) server []] /\
    Exec (machine "linux" server) (started server) =
      ([EClose watcher;
        EExecve bin (bin :: tl (Args (machine "linux" server)))
          (Environ (machine "linux" server))],
       match SyscallExec (machine "linux" server) bin
               (bin :: tl (Args (machine "linux" server)))
               (Environ (machine "linux" server)) with
       | Some err =>
           Panicked (PSprintf "cannot restart: %v" [AErr err]) (started server)
       | None => Replaced
       end).
Proof.
  exact (Exec_after_Do (machine "linux" server) [] init (started server)
           _ eq_refl).
Defined.

(** ** The process replacer *)

(** X9: when the process was started with an absolute path and [binSelf]
    is still empty or holds that path, [Exec] hands [syscall.Exec] the
    arguments of the process exactly as they are ([os.Args]) and its
    environment; and [Exec] never writes a package variable: a panic
    leaves them as they were. *)
Theorem Exec_keeps_arguments
  (w : world) (st : state) (bin : string) (rest : list string) :
  Args w = bin :: rest ->
  IsAbs w bin = true ->
  binSelf st = "" \/ binSelf st = bin ->
  fst (Exec w st) = closing st ++ [EExecve bin (Args w) (Environ w)] /\
  (snd (Exec w st) = Replaced \/
   exists err,
     SyscallExec w bin (Args w) (Environ w) = Some err /\
     snd (Exec w st) = Panicked (PSprintf "cannot restart: %v" [AErr err]) st).
Proof.
  intros Ha Hb Hst.
  assert (Hs : self w = Returns (bin, None)).
  { unfold self. rewrite Ha, Hb. reflexivity. }
  assert (Hn : names w st bin).
  { destruct Hst as [He|He].
    - right. auto.
    - destruct (String.eqb_spec bin "") as [Hbin|Hbin].
      + right. split; congruence.
      + left. auto. }
  rewrite (Exec_resolved w st bin bin rest Ha Hn), Ha. cbn [fst snd].
  split; [reflexivity|].
  destruct (SyscallExec w bin (bin :: rest) (Environ w)) as [err|]; eauto.
Qed.

(** [Exec] called without [Do] ever having run: nothing to close, and
    the process is started again as it was. *)
Lemma Exec_keeps_arguments_witness :
  fst (Exec (machine "linux" server) init) =
    [EExecve server [server; "-port"; "8080"] ["HOME=/root"; "PATH=/bin"]].
Proof.
  destruct (Exec_keeps_arguments (machine "linux" server) init server
              ["-port"; "8080"] eq_refl eq_refl (or_introl eq_refl)) as [H _].
  exact H.
Defined.

(** ** The event loop *)

Section Loop.

Variable w : world.

Lemma Exec_keeps st : keeps st (snd (Exec w st)).
Proof.
  destruct (Exec_cases w st) as [Ha|[[s [e [Hb Hs]]]|[p [a [rest [Ha Hn]]]]]].
  - unfold Exec, bind, get, lift, ret, raise, emit, replaced, self.
    rewrite Ha. destruct (String.eqb (binSelf st) ""); simpl; [reflexivity|].
    destruct (closeWatcher st); reflexivity.
  - rewrite (Exec_unresolved w st s e Hb Hs). reflexivity.
  - rewrite (Exec_resolved w st p a rest Ha Hn). simpl.
    destruct (SyscallExec w p (p :: rest) (Environ w)); reflexivity.
Qed.

Lemma callbacks_keeps additional event st :
  keeps st (snd (callbacks w additional event st)).
Proof.
  induction additional as [|a rest IH]; [reflexivity|].
  rewrite callbacks_cons.
  destruct (HasPrefix (Name event) (path a)); [|exact IH].
  destruct (returns (cb a)); [exact IH|apply Exec_keeps].
Qed.

Lemma on_event_keeps additional event st :
  keeps st (snd (on_event w additional event st)).
Proof.
  rewrite on_event_eq.
  destruct (negb (triggers w event)); [reflexivity|].
  destruct (String.eqb (Name event) (binSelf st));
    [destruct (returns (RestartExec st))|]; cbn [snd];
    auto using callbacks_keeps, Exec_keeps.
Qed.

Lemma on_msg_keeps additional m st :
  keeps st (snd (on_msg w additional m st)) /\
  forall st', snd (on_msg w additional m st) <> Blocked st'.
Proof.
  destruct m as [err|event|]; simpl.
  - split; [reflexivity|discriminate].
  - split; [apply on_event_keeps|apply on_event_not_blocked].
  - split; [reflexivity|discriminate].
Qed.

Lemma loop_cons additional m rest st :
  loop w additional (m :: rest) st =
    match snd (on_msg w additional m st) with
    | Done _ _ =>
        (fst (on_msg w additional m st) ++ fst (loop w additional rest st),
         snd (loop w additional rest st))
    | _ => on_msg w additional m st
    end.
Proof.
  cbn [loop]. unfold bind.
  destruct (on_msg_keeps additional m st) as [Hk Hb].
  destruct (on_msg w additional m st) as [t [u st1| |v st1|st1]];
    cbn [fst snd keeps] in *; try reflexivity.
  subst st1. destruct (loop w additional rest st). reflexivity.
Qed.

Lemma callbacks_calls additional event st s f :
  In (ECall s f) (fst (callbacks w additional event st)) ->
  exists a,
    In a additional /\ s = SCallback (path a) /\ f = cb a /\
    HasPrefix (Name event) (path a) = true.
Proof.
  induction additional as [|a rest IH]; [intros []|].
  rewrite callbacks_cons.
  destruct (HasPrefix (Name event) (path a)) eqn:Ha.
  - assert (Hhere : exists a0, In a0 (a :: rest) /\
                      SCallback (path a) = SCallback (path a0) /\
                      cb a = cb a0 /\ HasPrefix (Name event) (path a0) = true).
    { exists a. repeat split; [now left|exact Ha]. }
    destruct (returns (cb a)); cbn [fst turn app In].
    + intros [H|[H|H]]; [discriminate| |].
      * injection H as <- <-. exact Hhere.
      * destruct (IH H) as [a0 [Hin H0]]. exists a0. split; [now right|exact H0].
    + intros [H|[H|H]]; [discriminate| |].
      * injection H as <- <-. exact Hhere.
      * destruct (Exec_effects w st _ H) as [[h [He _]]|[p [He _]]]; discriminate.
  - intros H. destruct (IH H) as [a0 [Hin H0]].
    exists a0. split; [now right|exact H0].
Qed.

Lemma callbacks_sleeps additional event st :
  count is_sleep (fst (callbacks w additional event st)) =
    count is_call (fst (callbacks w additional event st)) /\
  (forall d, In (ESleep d) (fst (callbacks w additional event st)) -> d = grace).
Proof.
  induction additional as [|a rest [IHc IHd]].
  { split; [reflexivity|intros d []]. }
  rewrite callbacks_cons.
  destruct (HasPrefix (Name event) (path a)); [|split; assumption].
  destruct (returns (cb a)); cbn [fst].
  - split.
    + rewrite !(count_app _ (turn a)), IHc. reflexivity.
    + intros d [H|[H|H]]; [congruence|discriminate|auto].
  - split.
    + rewrite !(count_app _ (turn a)), !Exec_count by reflexivity. reflexivity.
    + intros d [H|[H|H]]; [congruence|discriminate|].
      destruct (Exec_effects w st _ H) as [[h [He _]]|[p [He _]]]; discriminate.
Qed.

Lemma warning_logs e :
  In e (warning w) -> known (GOOS w) = false /\ e = untested w.
Proof.
  unfold warning. destruct (known (GOOS w)); [intros []|].
  intros [<-|[]]. auto.
Qed.


End Loop.

(** X10: the event loop never returns and never writes a package
    variable: on any messages it ends waiting for the next one, or with
    the process replaced, or in a panic, and the variables are then as
    they were when it started. *)
Theorem loop_never_returns
  (w : world) (additional : list dir) (msgs : list msg) (st : state) :
  match snd (loop w additional msgs st) with
  | Done _ _ => False
  | Blocked st' | Panicked _ st' => st' = st
  | Replaced => True
  end.
Proof.
  induction msgs as [|m rest IH]; [reflexivity|].
  rewrite loop_cons.
  destruct (on_msg_keeps w additional m st) as [Hk Hb].
  destruct (on_msg w additional m st) as [t [u st1| |v st1|st1]];
    cbn [fst snd keeps] in *.
  - exact IH.
  - exact I.
  - exact Hk.
  - exact Hk.
Qed.

(** X11: notification errors and events that do not trigger, however
    many, are only passed over: each error is logged, each such event
    leaves at most the untested-platform warning, nothing sleeps, nothing
    is called, and the loop waits for the next message. *)
Theorem loop_passes_over
  (w : world) (additional : list dir) (msgs : list msg) (st : state) :
  forallb (quiet w) msgs = true ->
  loop w additional msgs st = (flat_map (passing w) msgs, Blocked st) /\
  count is_sleep (fst (loop w additional msgs st)) = 0%nat /\
  count is_call (fst (loop w additional msgs st)) = 0%nat /\
  count is_execve (fst (loop w additional msgs st)) = 0%nat.
Proof.
  intros Hq.
  assert (H : loop w additional msgs st = (flat_map (passing w) msgs, Blocked st)).
  { induction msgs as [|m rest IH]; [reflexivity|].
    simpl in Hq. apply andb_prop in Hq. destruct Hq as [Hm Hr].
    rewrite loop_cons.
    assert (Hone : on_msg w additional m st = (passing w m, Done tt st)).
    { destruct m as [err|event|]; [reflexivity| |reflexivity].
      simpl in *. rewrite on_event_eq, Hm. reflexivity. }
    rewrite Hone. cbn [fst snd]. rewrite (IH Hr). reflexivity. }
  rewrite H. cbn [fst].
  assert (Hnone : forall f,
            (forall format args, f (ELog format args) = false) ->
            count f (flat_map (passing w) msgs) = 0%nat).
  { intros f Hf. apply count_none. intros e He.
    apply in_flat_map in He. destruct He as [m [_ He]].
    destruct m as [err|event|]; simpl in He.
    - destruct He as [<-|[]]. apply Hf.
    - apply warning_logs in He. destruct He as [_ ->]. apply Hf.
    - destruct He as [<-|[]]. apply Hf. }
  repeat split; apply Hnone; reflexivity.
Qed.

(** A burst of chmods and a watcher error on Linux. *)
Lemma loop_passes_over_witness :
  loop (machine "linux" server) [Dir "/app/bin" FExec]
    [MEvent (chmod server); MEvent (chmod server);
     MError (OSError "queue overflow"); MEvent (remove server)]
    (started server) =
    ([ELog "reload error: %v" [AErr (OSError "queue overflow")]],
     Blocked (started server)).
Proof.
  apply (loop_passes_over (machine "linux" server) [Dir "/app/bin" FExec]
           [MEvent (chmod server); MEvent (chmod server);
            MError (OSError "queue overflow"); MEvent (remove server)]
           (started server)).
  reflexivity.
Defined.

(** X12: the loop calls nothing without a reason.  A callback is called
    only for a triggering event and only when it is the callback of a
    registered directory whose path is a prefix of the event's path; the
    restart action is called only for a triggering event whose path is
    [binSelf], and what is called is the current value of
    [RestartExec]. *)
Theorem calls_have_a_reason
  (w : world) (additional : list dir) (event : Event) (st : state)
  (s : site) (f : func) :
  In (ECall s f) (fst (on_event w additional event st)) ->
  triggers w event = true /\
  match s with
  | SRestart => Name event = binSelf st /\ f = RestartExec st
  | SCallback p =>
      HasPrefix (Name event) p = true /\ In (Dir_ p f) additional
  end.
Proof.
  assert (Hcb : In (ECall s f) (fst (callbacks w additional event st)) ->
                match s with
                | SRestart => Name event = binSelf st /\ f = RestartExec st
                | SCallback p =>
                    HasPrefix (Name event) p = true /\ In (Dir_ p f) additional
                end).
  { intros H. destruct (callbacks_calls w additional event st s f H)
      as [[p g] [Hin [-> [-> Hp]]]]. auto. }
  assert (Hw : ~ In (ECall s f) (warning w)).
  { intros H. apply warning_logs in H. destruct H as [_ H]. discriminate. }
  assert (HE : ~ In (ECall s f) (fst (Exec w st))).
  { intros H.
    destruct (Exec_effects w st _ H) as [[h [He _]]|[p [He _]]]; discriminate. }
  rewrite on_event_eq.
  destruct (triggers w event); cbn [negb].
  2:{ cbn [fst]. intros H. contradiction. }
  intros H. split; [reflexivity|].
  destruct (String.eqb_spec (Name event) (binSelf st)) as [Hn|Hn].
  - destruct (returns (RestartExec st)); cbn [fst] in H;
      apply in_app_or in H; destruct H as [H|H]; try contradiction;
      cbn [app In] in H; destruct H as [H|[H|H]]; try discriminate.
    + injection H as <- <-. split; [exact Hn|reflexivity].
    + exact (Hcb H).
    + injection H as <- <-. split; [exact Hn|reflexivity].
    + contradiction.
  - cbn [fst] in H. apply in_app_or in H. destruct H as [H|H];
      [contradiction|exact (Hcb H)].
Qed.

(** The callback of [/app/templates] was called: the event was a
    triggering one below [/app/templates]. *)
Lemma calls_have_a_reason_witness :
  triggers (machine "linux" server) (write "/app/templates/index.html") = true /\
  HasPrefix (Name (write "/app/templates/index.html")) "/app/templates" = true /\
  In (Dir_ "/app/templates" (FUser "reloadTpl"))
     [Dir "/a/b" FExec; Dir "/app/templates" (FUser "reloadTpl")].
Proof.
  apply (calls_have_a_reason (machine "linux" server)
           [Dir "/a/b" FExec; Dir "/app/templates" (FUser "reloadTpl")]
           (write "/app/templates/index.html") (started server)
           (SCallback "/app/templates") (FUser "reloadTpl")).
  simpl. auto.
Defined.

Section Sleeps.

Variable w : world.

Lemma on_event_sleeps additional event st :
  count is_sleep (fst (on_event w additional event st)) =
    count is_call (fst (on_event w additional event st)) /\
  (forall d, In (ESleep d) (fst (on_event w additional event st)) -> d = grace).
Proof.
  destruct (callbacks_sleeps w additional event st) as [Hc Hd].
  assert (Hw1 : count is_sleep (warning w) = 0%nat)
    by (apply warning_footprint; reflexivity).
  assert (Hw2 : count is_call (warning w) = 0%nat)
    by (apply warning_footprint; reflexivity).
  assert (Hw3 : forall d, ~ In (ESleep d) (warning w)).
  { intros d H. apply warning_logs in H. destruct H as [_ H]. discriminate. }
  assert (HE : forall d, ~ In (ESleep d) (fst (Exec w st))).
  { intros d H.
    destruct (Exec_effects w st _ H) as [[h [He _]]|[p [He _]]]; discriminate. }
  rewrite on_event_eq.
  destruct (negb (triggers w event)); cbn [fst].
  { split; [congruence|]. intros d H. destruct (Hw3 d H). }
  destruct (String.eqb (Name event) (binSelf st));
    [destruct (returns (RestartExec st))|]; cbn [fst]; split.
  - rewrite !count_app, Hw1, Hw2, Hc. reflexivity.
  - intros d H. apply in_app_or in H. destruct H as [H|H]; [destruct (Hw3 d H)|].
    cbn [app In] in H. destruct H as [H|[H|H]]; [congruence|discriminate|auto].
  - rewrite !count_app, Hw1, Hw2.
    rewrite !Exec_count by reflexivity. reflexivity.
  - intros d H. apply in_app_or in H. destruct H as [H|H]; [destruct (Hw3 d H)|].
    cbn [app In] in H. destruct H as [H|[H|H]]; [congruence|discriminate|].
    destruct (HE d H).
  - rewrite !count_app, Hw1, Hw2, Hc. reflexivity.
  - intros d H. apply in_app_or in H. destruct H as [H|H];
      [destruct (Hw3 d H)|auto].
Qed.

Lemma on_msg_sleeps additional m st :
  count is_sleep (fst (on_msg w additional m st)) =
    count is_call (fst (on_msg w additional m st)) /\
  (forall d, In (ESleep d) (fst (on_msg w additional m st)) -> d = grace).
Proof.
  destruct m as [err|event|]; [|apply on_event_sleeps|];
    (split; [reflexivity|]; intros d [H|[]]; discriminate).
Qed.


End Sleeps.

(** X13: every call the loop makes, of the restart action or of a
    callback, comes with a sleep of its own, and the loop sleeps for
    nothing else: in any run of the loop there are as many sleeps as
    calls, and each sleep lasts 100 ms. *)
Theorem one_grace_period_per_call
  (w : world) (additional : list dir) (msgs : list msg) (st : state) :
  count is_sleep (fst (loop w additional msgs st)) =
    count is_call (fst (loop w additional msgs st)) /\
  (forall d, In (ESleep d) (fst (loop w additional msgs st)) ->
     d = (100 * time.Millisecond)%Z).
Proof.
  induction msgs as [|m rest [IHc IHd]].
  { split; [reflexivity|intros d []]. }
  rewrite loop_cons.
  destruct (on_msg_sleeps w additional m st) as [Hc Hd].
  destruct (snd (on_msg w additional m st)); try (split; assumption).
  cbn [fst]. split.
  - rewrite !count_app, Hc, IHc. reflexivity.
  - intros d H. apply in_app_or in H. destruct H as [H|H]; auto.
Qed.

(** X14: an operation that includes neither create nor write triggers on
    no platform: such an event (a remove, a rename, a chmod, or any mix
    of them) never restarts and never calls a callback, wherever the
    program runs; only platforms outside the BSD and Linux families log
    their warning for it.  An operation that includes both create and
    write triggers on every platform. *)
Theorem other_operations_never_trigger (event : Event) :
  (Z.testbit (Op_ event) 0 = false ->
   Z.testbit (Op_ event) 1 = false ->
   forall w additional st,
     on_event w additional event st = (warning w, Done tt st)) /\
  (Z.testbit (Op_ event) 0 = true ->
   Z.testbit (Op_ event) 1 = true ->
   forall w, triggers w event = true) /\
  (forall w, triggers w event = true ->
     Z.testbit (Op_ event) 0 = true \/ Z.testbit (Op_ event) 1 = true).
Proof.
  assert (HC : has (Op_ event) Create = Z.testbit (Op_ event) 0)
    by (apply (has_bit _ 0); lia).
  assert (HW : has (Op_ event) Write = Z.testbit (Op_ event) 1)
    by (apply (has_bit _ 1); lia).
  assert (Ht : forall w, triggers w event =
                 if String.eqb (GOOS w) "linux"
                 then Z.testbit (Op_ event) 1 else Z.testbit (Op_ event) 0).
  { intros w. unfold triggers, trigger_kind.
    destruct (String.eqb (GOOS w) "linux"); assumption. }
  repeat split.
  - intros H0 H1 w additional st. rewrite on_event_eq, Ht, H0, H1.
    destruct (String.eqb (GOOS w) "linux"); reflexivity.
  - intros H0 H1 w. rewrite Ht, H0, H1.
    destruct (String.eqb (GOOS w) "linux"); reflexivity.
  - intros w. rewrite Ht.
    destruct (String.eqb (GOOS w) "linux"); auto.
Qed.

(** Removing or renaming the binary does nothing, on macOS as on Linux. *)
Lemma other_operations_never_trigger_witness :
  on_event (machine "darwin" server) [Dir "/app/bin" FExec]
    (remove server) (started server) = ([], Done tt (started server)) /\
  on_event (machine "linux" server) [Dir "/app/bin" FExec]
    (rename server) (started server) = ([], Done tt (started server)).
Proof.
  split.
  - destruct (other_operations_never_trigger (remove server)) as [H _].
    exact (H eq_refl eq_refl (machine "darwin" server) _ _).
  - destruct (other_operations_never_trigger (rename server)) as [H _].
    exact (H eq_refl eq_refl (machine "linux" server) _ _).
Defined.



(** ** Start-up and the loop together *)

Lemma tried_incl (w : world) (watcher : handle) (dirs : list string) (d : string) :
  In d (tried w watcher dirs) -> In d dirs.
Proof.
  induction dirs as [|d0 rest IH]; simpl; [auto|].
  destruct (WatcherAdd w watcher d0).
  - intros [<-|[]]. now left.
  - intros [<-|H]; [now left|right; auto].
Qed.

(** X16: [Do] adds to the watcher nothing but the directory of the
    resolved binary and the validated additional directories, on the
    watcher it has just created, and only once it has started the event
    loop on those same validated descriptors: the trace is the creation
    of the watcher, then the start of the loop, then a rest that holds
    every [watcher.Add] and no second start of a loop. *)
Theorem Do_adds_only_watch_list
  (w : world) (additional : list dir) (st : state) (h : handle) (d : string) :
  In (EAdd h d) (fst (Do w additional st)) ->
  exists bin additional' rest,
    NewWatcher w = Ok h /\
    self w = Returns (bin, None) /\
    resolve w additional = Ok additional' /\
    In d (watch_list w bin additional') /\
    fst (Do w additional st) = ENewWatcher h :: EGo additional' :: rest /\
    In (EAdd h d) rest /\
    count is_go rest = 0%nat.
Proof.
  rewrite Do_eq.
  destruct (NewWatcher w) as [watcher|err]; [|intros []].
  destruct (self w) as [[bin [err|]]|v];
    try (intros [H|[]]; discriminate).
  destruct (resolve w additional) as [additional'|err];
    [|intros [H|[]]; discriminate].
  cbv zeta.
  assert (Hadd : forall t',
            (forall e, In e t' -> is_add e = false /\ is_go e = false) ->
            In (EAdd h d)
               (map (EAdd watcher)
                  (tried w watcher (filepath_Dir w bin :: map path additional'))
                  ++ t') ->
            watcher = h /\ In d (watch_list w bin additional') /\
            count is_go
              (map (EAdd watcher)
                 (tried w watcher (filepath_Dir w bin :: map path additional'))
                 ++ t') = 0%nat).
  { intros t' Ht' H. repeat split.
    - apply in_app_or in H. destruct H as [H|H].
      + apply in_map_iff in H. destruct H as [d' [H _]]. congruence.
      + destruct (Ht' _ H). discriminate.
    - apply in_app_or in H. destruct H as [H|H].
      + apply in_map_iff in H. destruct H as [d' [H Hin]].
        injection H as _ ->. exact (tried_incl w watcher _ d Hin).
      + destruct (Ht' _ H). discriminate.
    - rewrite count_app, count_adds by reflexivity.
      apply count_none. intros e He. exact (proj2 (Ht' e He)). }
  destruct (add_error w watcher _) as [err|]; cbn [fst app].
  - intros [H|[H|H]]; try discriminate.
    rewrite <- (app_nil_r (map _ _)) in H |- *.
    destruct (Hadd [] (fun x Hx => match Hx with end) H) as [-> [Hd Hgo]].
    exists bin, additional'. eexists. repeat split; eassumption.
  - intros [H|[H|H]]; try discriminate.
    assert (Hl : forall e,
              In e [ELog "restarting %q when it changes%s"
                      [AStr (relpath w bin);
                       AStr (additional_msg w
                               (filepath_Dir w bin :: map path additional'))]] ->
              is_add e = false /\ is_go e = false).
    { intros e [<-|[]]. split; reflexivity. }
    destruct (Hadd _ Hl H) as [-> [Hd Hgo]].
    exists bin, additional'. eexists. repeat split; eassumption.
Qed.

(** On the development machine [/app/templates] is added on watcher 3,
    as a validated directory, after the loop was started. *)
Lemma Do_adds_only_watch_list_witness :
  exists bin additional' rest,
    NewWatcher (machine "linux" server) = Ok 3%nat /\
    self (machine "linux" server) = Returns (bin, None) /\
    resolve (machine "linux" server) [Dir "templates" (FUser "reloadTpl")]
      = Ok additional' /\
    In "/app/templates" (watch_list (machine "linux" server) bin additional') /\
    fst (Do (machine "linux" server)
           [Dir "templates" (FUser "reloadTpl")] init)
      = ENewWatcher 3%nat :: EGo additional' :: rest /\
    In (EAdd 3%nat "/app/templates") rest /\
    count is_go rest = 0%nat.
Proof.
  apply (Do_adds_only_watch_list (machine "linux" server)
           [Dir "templates" (FUser "reloadTpl")] init 3%nat "/app/templates").
  simpl. auto.
Defined.

(** X17: from start-up to restart.  After a start-up that parked, with
    [RestartExec] left as [init] set it, a triggering event for the
    resolved binary makes the loop sleep 100 ms, call [Exec], close the
    watcher that [Do] created and call [syscall.Exec] on the binary with
    its path followed by [os.Args[1:]] and with [os.Environ()]; no
    callback is called, whatever directories were registered. *)
Theorem restart_after_startup
  (w : world) (additional additional' : list dir) (st st' : state)
  (t : trace) (event : Event) (watcher : handle) (bin : string) :
  Do w additional st = (t, Blocked st') ->
  RestartExec st = FExec ->
  NewWatcher w = Ok watcher ->
  self w = Returns (bin, None) ->
  Name event = bin ->
  triggers w event = true ->
  on_event w additional' event st' =
    (warning w
       ++ [ESleep (100 * time.Millisecond); ECall SRestart FExec;
           EClose watcher;
           EExecve bin (bin :: tl (Args w)) (Environ w)],
     match SyscallExec w bin (bin :: tl (Args w)) (Environ w) with
     | Some err => Panicked (PSprintf "cannot restart: %v" [AErr err]) st'
     | None => Replaced
     end).
Proof.
  intros HD HR HW Hs Hn Ht. rewrite Do_eq, HW, Hs in HD.
  destruct (resolve w additional) as [l|err]; [|discriminate].
  cbv zeta in HD. destruct (add_error w watcher _); [discriminate|].
  injection HD as _ <-.
  destruct (self_args w bin None Hs) as [a [rest Ha]].
  assert (Hnames : names w (armed st watcher bin) bin)
    by (apply resolved_names; [exact Hs|reflexivity]).
  rewrite on_event_eq, Ht, Hn. cbn [negb armed binSelf RestartExec].
  rewrite String.eqb_refl, HR. cbn [returns].
  fold (armed st watcher bin).
  rewrite (Exec_resolved w _ bin a rest Ha Hnames), Ha. reflexivity.
Qed.

(** Scenario A after the start-up of the development machine. *)
Lemma restart_after_startup_witness :
  on_event (machine "darwin" server) [Dir "/app/templates" (FUser "reloadTpl")]
    (create server) (started server) =
    ([ESleep 100000000; ECall SRestart FExec; EClose 3%nat;
      EExecve server [server; "-port"; "8080"] ["HOME=/root"; "PATH=/bin"]],
     Replaced).
Proof.
  apply (restart_after_startup (machine "darwin" server)
           [Dir "templates" (FUser "reloadTpl")]
           [Dir "/app/templates" (FUser "reloadTpl")]
           init (started server)
           (fst (Do (machine "darwin" server)
                   [Dir "templates" (FUser "reloadTpl")] init))
           (create server) 3%nat server); reflexivity.
Defined.
